(** * Task Scheduler Service

    A shallow embedding of [TaskSchedulerService] (task scheduler service
    of the FastMCP server generator) and the proofs of its lifecycle
    properties.

    The service is a JavaScript class holding a [Map] from task ids to task
    objects and a record of service-wide counters.  Its collaborators are
    the cron library ([cron.validate], [cron.schedule], the handle's
    [nextDate] and [stop]), the wall clock ([new Date()]), the event
    emitter it extends and the macrotask queue ([setImmediate]).

    Modelling conventions.
    - JavaScript values are the inductive type [Value]; a function value
      carries the settlement of the promise its call produces (resolved
      with a value or raised with one).  A handler that never settles
      leaves its run at [runTask_enter].
    - JavaScript numbers used as counters are integers [Z] (exact as long
      as a counter stays below 2^53); dates are milliseconds in [Z]; the
      [maxTasks] option is an integer.
    - The [Map] of tasks is a [gmap string Task.t].  A task object is only
      ever reached through the map entry of its id, and one call of the
      service runs without another call interleaving at its [await], so
      the reference [taskObj] held by a call is the entry of [taskId].
    - The cron library is an interface ([Cron]); every theorem holds for
      every implementation of it.
    - [emit] appends to an event log: listeners return normally. *)

From stdpp Require Import gmap strings list fin_maps.
From Stdlib Require Import ZArith Lia.

Local Open Scope string_scope.
Local Open Scope list_scope.
Local Open Scope Z_scope.

(** ** JavaScript values *)

#[warnings="-register-all"]
Inductive Value : Type :=
| VUndefined
| VNull
| VBool (b : bool)
| VNum (n : Z)
| VStr (s : string)
| VObject (props : gmap string Value)
| VFunction (body : Outcome)
with Outcome : Type :=
| Resolved (result : Value)
| Raised (error : Value).

(** [typeof v === 'function'] *)
Definition is_function (v : Value) : bool :=
  match v with VFunction _ => true | _ => false end.

(** [v === undefined || v === null] *)
Definition is_nullish (v : Value) : bool :=
  match v with VUndefined | VNull => true | _ => false end.

(** [ToBoolean], as used by [||] and [if]. *)
Definition truthy (v : Value) : bool :=
  match v with
  | VUndefined | VNull => false
  | VBool b => b
  | VNum n => negb (n =? 0)
  | VStr s => negb (String.eqb s "")
  | VObject _ | VFunction _ => true
  end.

(** [a || b] *)
Definition js_or (a b : Value) : Value := if truthy a then a else b.

(** [o[k]] on the properties of an object: a missing key reads [undefined]. *)
Definition prop (o : gmap string Value) (k : string) : Value :=
  default VUndefined (o !! k).

(** [v.k]: reading a property of [undefined] or [null] throws a
    [TypeError] ([None]); the keys read by the service (["run"],
    ["message"]) are not defined on primitives or plain functions. *)
Definition get (v : Value) (k : string) : option Value :=
  match v with
  | VUndefined | VNull => None
  | VObject props => Some (prop props k)
  | _ => Some VUndefined
  end.

(** Message of the [TypeError] thrown by [v.k] when [v] is nullish. *)
Definition read_error (v : Value) (k : string) : string :=
  "Cannot read properties of "
  +:+ (match v with VNull => "null" | _ => "undefined" end)
  +:+ " (reading '" +:+ k +:+ "')".

(** [new Error(msg)], as far as the service looks at it. *)
Definition error_object (msg : string) : Value :=
  VObject {[ "message" := VStr msg ]}.

(** [f()] awaited through [Promise.resolve]: calling a non-function
    throws a [TypeError]. *)
Definition invoke (f : Value) : Outcome :=
  match f with
  | VFunction body => body
  | _ => Raised (error_object "taskObj.task is not a function")
  end.

(** ** The cron library *)

(** What the service asks of the cron library.
    - [cron_validate e] is [cron.validate(e)].
    - [cron_schedule e tz scheduled] is [cron.schedule(e, fn, {timezone: tz,
      scheduled})]: [Some msg] when the call throws an error with message
      [msg], [None] when it returns a task handle.
    - [cron_nextDate e tz t] is [task.nextDate().toDate()] on a handle made
      for [(e, tz)], evaluated when the clock reads [t]: [None] when the
      call chain throws. *)
Class Cron := {
  cron_validate : string → bool;
  cron_schedule : string → Value → bool → option string;
  cron_nextDate : string → Value → Z → option Z
}.

(** A task handle of the cron library: the callback it fires is either the
    closure [async () => { await this.runTask(taskId) }] ([Some taskId]) or
    the empty function of [calculateNextRun] ([None]). *)
Record CronTask := mkCronTask {
  expression : string;
  timezone : Value;
  callback : option string;
  active : bool
}.

(** ** Task objects and service state *)

Record TaskStats := mkTaskStats { runs : Z; errors : Z }.

Module Task.
Record t := mk {
  id : string;
  schedule : string;
  task : Value;
  options : gmap string Value;
  status : string;
  created : Z;
  lastRun : option Z;
  nextRun : option Z;
  stats : TaskStats;
  cronTask : nat;
  lastResult : option Value;
  lastError : option Value
}.

Definition set_status (v : string) (o : t) : t :=
  mk (id o) (schedule o) (task o) (options o) v (created o) (lastRun o)
     (nextRun o) (stats o) (cronTask o) (lastResult o) (lastError o).
Definition set_lastRun (v : option Z) (o : t) : t :=
  mk (id o) (schedule o) (task o) (options o) (status o) (created o) v
     (nextRun o) (stats o) (cronTask o) (lastResult o) (lastError o).
Definition set_nextRun (v : option Z) (o : t) : t :=
  mk (id o) (schedule o) (task o) (options o) (status o) (created o)
     (lastRun o) v (stats o) (cronTask o) (lastResult o) (lastError o).
Definition set_stats (v : TaskStats) (o : t) : t :=
  mk (id o) (schedule o) (task o) (options o) (status o) (created o)
     (lastRun o) (nextRun o) v (cronTask o) (lastResult o) (lastError o).
Definition set_lastResult (v : option Value) (o : t) : t :=
  mk (id o) (schedule o) (task o) (options o) (status o) (created o)
     (lastRun o) (nextRun o) (stats o) (cronTask o) v (lastError o).
Definition set_lastError (v : option Value) (o : t) : t :=
  mk (id o) (schedule o) (task o) (options o) (status o) (created o)
     (lastRun o) (nextRun o) (stats o) (cronTask o) (lastResult o) v.
End Task.

(** [this.stats] *)
Record Stats := mkStats {
  scheduled : Z;
  running : Z;
  completed : Z;
  failed : Z;
  cancelled : Z
}.

(** Lifecycle notifications, in the order of their [emit]. *)
Inductive Event :=
| task_scheduled (taskId schedule : string)
| task_running (taskId : string)
| task_completed (taskId : string) (result : Value)
| task_failed (taskId : string) (error : Value)
| task_cancelled (taskId : string)
| task_deleted (taskId : string).

(** The service ([maxTasks], [tasks], [stats]) and the part of its
    environment it acts on: the clock, the handles of the cron library in
    order of creation (a handle is its index), the runs deferred with
    [setImmediate], and the emitted events. *)
Record Scheduler := mkScheduler {
  maxTasks : Z;
  tasks : gmap string Task.t;
  stats : Stats;
  now : Z;
  cronTasks : list CronTask;
  immediates : list string;
  events : list Event
}.

Definition set_tasks (v : gmap string Task.t) (s : Scheduler) : Scheduler :=
  mkScheduler (maxTasks s) v (stats s) (now s) (cronTasks s) (immediates s)
    (events s).
Definition set_stats (v : Stats) (s : Scheduler) : Scheduler :=
  mkScheduler (maxTasks s) (tasks s) v (now s) (cronTasks s) (immediates s)
    (events s).
Definition set_now (v : Z) (s : Scheduler) : Scheduler :=
  mkScheduler (maxTasks s) (tasks s) (stats s) v (cronTasks s) (immediates s)
    (events s).
Definition set_cronTasks (v : list CronTask) (s : Scheduler) : Scheduler :=
  mkScheduler (maxTasks s) (tasks s) (stats s) (now s) v (immediates s)
    (events s).
Definition set_immediates (v : list string) (s : Scheduler) : Scheduler :=
  mkScheduler (maxTasks s) (tasks s) (stats s) (now s) (cronTasks s) v
    (events s).

(** [this.emit(...)] *)
Definition emit (e : Event) (s : Scheduler) : Scheduler :=
  mkScheduler (maxTasks s) (tasks s) (stats s) (now s) (cronTasks s)
    (immediates s) (events s ++ [e]).

(** [setImmediate(() => this.runTask(taskId))] *)
Definition setImmediate (taskId : string) (s : Scheduler) : Scheduler :=
  set_immediates (immediates s ++ [taskId]) s.

(** A new handle of the cron library; its index is the old length. *)
Definition new_cronTask (c : CronTask) (s : Scheduler) : Scheduler :=
  set_cronTasks (cronTasks s ++ [c]) s.

(** [handle.stop()] *)
Definition stop_cronTask (h : nat) (s : Scheduler) : Scheduler :=
  set_cronTasks
    (alter (λ c, mkCronTask (expression c) (timezone c) (callback c) false)
       h (cronTasks s)) s.

(** Whether the trigger behind handle [h] can still fire. *)
Definition trigger_active (s : Scheduler) (h : nat) : bool :=
  match cronTasks s !! h with
  | Some c => active c
  | None => false
  end.

(** A mutation of the task object registered under [taskId]. *)
Definition update_task (taskId : string) (f : Task.t → Task.t)
    (s : Scheduler) : Scheduler :=
  set_tasks (alter f taskId (tasks s)) s.

(** Counter updates. *)
Definition incr_scheduled (c : Stats) : Stats :=
  mkStats (scheduled c + 1) (running c) (completed c) (failed c) (cancelled c).
Definition incr_running (c : Stats) : Stats :=
  mkStats (scheduled c) (running c + 1) (completed c) (failed c) (cancelled c).
Definition decr_running (c : Stats) : Stats :=
  mkStats (scheduled c) (running c - 1) (completed c) (failed c) (cancelled c).
Definition incr_completed (c : Stats) : Stats :=
  mkStats (scheduled c) (running c) (completed c + 1) (failed c) (cancelled c).
Definition incr_failed (c : Stats) : Stats :=
  mkStats (scheduled c) (running c) (completed c) (failed c + 1) (cancelled c).
Definition incr_cancelled (c : Stats) : Stats :=
  mkStats (scheduled c) (running c) (completed c) (failed c) (cancelled c + 1).

Definition incr_runs (c : TaskStats) : TaskStats :=
  mkTaskStats (runs c + 1) (errors c).
Definition incr_errors (c : TaskStats) : TaskStats :=
  mkTaskStats (runs c) (errors c + 1).

(** ** Results of the operations *)

(** The projection of a task returned by [getTaskInfo]. *)
Record TaskView := mkTaskView {
  view_id : string;
  view_schedule : string;
  view_status : string;
  view_created : Z;
  view_lastRun : option Z;
  view_nextRun : option Z;
  view_options : gmap string Value;
  view_stats : TaskStats
}.

(** The result objects of the service:
    [{success: true, taskId, nextRun}], [{success: true, taskId, result}],
    [{success: false, taskId, error}], [{success: true, taskId}],
    [{success: true, task}] and [{success: false, error}]. *)
Inductive Reply :=
| Scheduled (taskId : string) (nextRun : Z)
| Ran (taskId : string) (result : Value)
| RunFailed (taskId : string) (error : Value)
| Done (taskId : string)
| Info (task : TaskView)
| Failure (error : Value).

Definition success (r : Reply) : bool :=
  match r with
  | Scheduled _ _ | Ran _ _ | Done _ | Info _ => true
  | RunFailed _ _ | Failure _ => false
  end.

(** The error messages, under the names the specification gives them. *)
Definition DuplicateTaskId : Value := VStr "Task ID already exists".
Definition TaskLimitExceeded : Value := VStr "Maximum task limit reached".
Definition InvalidScheduleExpression : Value :=
  VStr "Invalid cron schedule expression".
Definition TaskNotFound : Value := VStr "Task not found".

(** The result of [getStats]. *)
Record StatsView := mkStatsView {
  stat_scheduled : Z;
  stat_running : Z;
  stat_completed : Z;
  stat_failed : Z;
  stat_cancelled : Z;
  taskCount : nat;
  stat_maxTasks : Z
}.

(** [new TaskSchedulerService({maxTasks})] started when the clock reads
    [t]; without the option the limit is 100. *)
Definition new_service (limit : option Z) (t : Z) : Scheduler :=
  mkScheduler (default 100 limit) ∅ (mkStats 0 0 0 0 0) t [] [] [].

(** ** The operations of [TaskSchedulerService] *)

(** [typeof task === 'function' ? task : task.run]; [None] when reading
    [task.run] throws. *)
Definition task_handler (task : Value) : option Value :=
  if is_function task then Some task else get task "run".

(** [{timezone: options.timezone || 'UTC',
      runOnStart: options.runOnStart || false, ...options}]: the
    properties of [options] override the two defaults. *)
Definition task_options (options : gmap string Value) : gmap string Value :=
  options ∪
  {[ "timezone" := js_or (prop options "timezone") (VStr "UTC");
     "runOnStart" := js_or (prop options "runOnStart") (VBool false) ]}.

(** The task object [scheduleTask] builds; [nextRun] is [null] until the
    next date is computed. *)
Definition new_taskObj (taskId schedule : string) (handler : Value)
    (options : gmap string Value) (created : Z) (nextRun : option Z)
    (cronTask : nat) : Task.t :=
  Task.mk taskId schedule handler options "scheduled" created None nextRun
    (mkTaskStats 0 0) cronTask None None.

Section Service.
Context `{Cron}.

(** [calculateNextRun(schedule, timezone = 'UTC')]: a temporary handle is
    made (not started), asked for its next date and stopped; whenever a
    call of the [try] block throws, the result is [new Date()]. *)
Definition calculateNextRun (schedule : string) (timezone : Value)
    (s : Scheduler) : Z * Scheduler :=
  let timezone :=
    match timezone with VUndefined => VStr "UTC" | _ => timezone end in
  match cron_schedule schedule timezone false with
  | Some _ => (now s, s)
  | None =>
    let task := length (cronTasks s) in
    let s := new_cronTask (mkCronTask schedule timezone None false) s in
    match cron_nextDate schedule timezone (now s) with
    | None => (now s, s)
    | Some nextDate => (nextDate, stop_cronTask task s)
    end
  end.

(** [taskObj.nextRun = this.calculateNextRun(taskObj.schedule,
    taskObj.options.timezone)] *)
Definition refresh_nextRun (taskId : string) (s : Scheduler)
    : Z * Scheduler :=
  match tasks s !! taskId with
  | None => (now s, s)
  | Some taskObj =>
    let '(nextRun, s) :=
      calculateNextRun (Task.schedule taskObj)
        (prop (Task.options taskObj) "timezone") s in
    (nextRun, update_task taskId (Task.set_nextRun (Some nextRun)) s)
  end.

(** [scheduleTask(taskId, schedule, task, options = {})] *)
Definition scheduleTask (taskId schedule : string) (task : Value)
    (options : gmap string Value) (s : Scheduler) : Reply * Scheduler :=
  if bool_decide (is_Some (tasks s !! taskId)) then
    (Failure DuplicateTaskId, s)
  else if maxTasks s <=? Z.of_nat (size (tasks s)) then
    (Failure TaskLimitExceeded, s)
  else if negb (cron_validate schedule) then
    (Failure InvalidScheduleExpression, s)
  else
    match task_handler task with
    | None => (Failure (VStr (read_error task "run")), s)
    | Some handler =>
      let options := task_options options in
      match cron_schedule schedule (prop options "timezone") true with
      | Some message => (Failure (VStr message), s)
      | None =>
        let cronTask := length (cronTasks s) in
        let taskObj :=
          new_taskObj taskId schedule handler options (now s) None cronTask in
        let s :=
          new_cronTask
            (mkCronTask schedule (prop options "timezone") (Some taskId) true)
            s in
        let s := set_tasks (<[taskId := taskObj]> (tasks s)) s in
        let s := set_stats (incr_scheduled (stats s)) s in
        let '(nextRun, s) := refresh_nextRun taskId s in
        let s := emit (task_scheduled taskId schedule) s in
        let s :=
          if truthy (prop options "runOnStart") then setImmediate taskId s
          else s in
        (Scheduled taskId nextRun, s)
      end
    end.

(** [runTask], up to the call of the handler: the task is marked running. *)
Definition runTask_enter (taskId : string) (s : Scheduler) : Scheduler :=
  let s :=
    update_task taskId
      (λ taskObj,
         Task.set_lastRun (Some (now s)) (Task.set_status "running" taskObj))
      s in
  let s := set_stats (incr_running (stats s)) s in
  emit (task_running taskId) s.

(** [runTask], from the settlement of the awaited handler.  In the
    [catch] branch [error.message] is read after the task was marked
    failed: when the handler raised [undefined] or [null] that read throws
    and the outer [catch] returns its message. *)
Definition runTask_settle (taskId : string) (o : Outcome) (s : Scheduler)
    : Reply * Scheduler :=
  match o with
  | Resolved result =>
    let s :=
      update_task taskId
        (λ taskObj,
           Task.set_lastResult (Some result)
             (Task.set_status "completed"
                (Task.set_stats (incr_runs (Task.stats taskObj)) taskObj)))
        s in
    let s := set_stats (incr_completed (decr_running (stats s))) s in
    let '(_, s) := refresh_nextRun taskId s in
    let s := emit (task_completed taskId result) s in
    (Ran taskId result, s)
  | Raised error =>
    let s :=
      update_task taskId
        (λ taskObj,
           Task.set_status "failed"
             (Task.set_stats (incr_errors (Task.stats taskObj)) taskObj))
        s in
    match get error "message" with
    | None => (Failure (VStr (read_error error "message")), s)
    | Some message =>
      let s := update_task taskId (Task.set_lastError (Some message)) s in
      let s := set_stats (incr_failed (decr_running (stats s))) s in
      let '(_, s) := refresh_nextRun taskId s in
      let s := emit (task_failed taskId message) s in
      (RunFailed taskId message, s)
    end
  end.

(** [runTask(taskId)], the value its promise resolves to. *)
Definition runTask (taskId : string) (s : Scheduler) : Reply * Scheduler :=
  match tasks s !! taskId with
  | None => (Failure TaskNotFound, s)
  | Some taskObj =>
    let s := runTask_enter taskId s in
    runTask_settle taskId (invoke (Task.task taskObj)) s
  end.

(** [cancelTask(taskId)] *)
Definition cancelTask (taskId : string) (s : Scheduler) : Reply * Scheduler :=
  match tasks s !! taskId with
  | None => (Failure TaskNotFound, s)
  | Some taskObj =>
    let s := stop_cronTask (Task.cronTask taskObj) s in
    let s := update_task taskId (Task.set_status "cancelled") s in
    let s := set_stats (incr_cancelled (stats s)) s in
    let s := emit (task_cancelled taskId) s in
    (Done taskId, s)
  end.

(** [deleteTask(taskId)] *)
Definition deleteTask (taskId : string) (s : Scheduler) : Reply * Scheduler :=
  match tasks s !! taskId with
  | None => (Failure TaskNotFound, s)
  | Some taskObj =>
    let s := stop_cronTask (Task.cronTask taskObj) s in
    let s := set_tasks (delete taskId (tasks s)) s in
    let s := emit (task_deleted taskId) s in
    (Done taskId, s)
  end.

(** [getTaskInfo(taskId)] *)
Definition getTaskInfo (taskId : string) (s : Scheduler) : Reply :=
  match tasks s !! taskId with
  | None => Failure TaskNotFound
  | Some taskObj =>
    Info (mkTaskView (Task.id taskObj) (Task.schedule taskObj)
            (Task.status taskObj) (Task.created taskObj)
            (Task.lastRun taskObj) (Task.nextRun taskObj)
            (Task.options taskObj) (Task.stats taskObj))
  end.

(** [getStats()] *)
Definition getStats (s : Scheduler) : StatsView :=
  mkStatsView (scheduled (stats s)) (running (stats s)) (completed (stats s))
    (failed (stats s)) (cancelled (stats s)) (size (tasks s)) (maxTasks s).

(** ** Histories

    What can happen to a service: the four mutating calls of its
    interface, a tick of the trigger behind a handle (the cron library
    calls the handle's callback when the handle is active), the run of the
    oldest deferred [setImmediate] callback, and time passing. *)
Inductive Op :=
| OpSchedule (taskId schedule : string) (task : Value)
    (options : gmap string Value)
| OpRun (taskId : string)
| OpCancel (taskId : string)
| OpDelete (taskId : string)
| OpTrigger (handle : nat)
| OpImmediate
| OpTime (elapsed : N).

Definition step (op : Op) (s : Scheduler) : Scheduler :=
  match op with
  | OpSchedule taskId schedule task options =>
    snd (scheduleTask taskId schedule task options s)
  | OpRun taskId => snd (runTask taskId s)
  | OpCancel taskId => snd (cancelTask taskId s)
  | OpDelete taskId => snd (deleteTask taskId s)
  | OpTrigger handle =>
    match cronTasks s !! handle with
    | Some (mkCronTask _ _ (Some taskId) true) => snd (runTask taskId s)
    | _ => s
    end
  | OpImmediate =>
    match immediates s with
    | [] => s
    | taskId :: rest => snd (runTask taskId (set_immediates rest s))
    end
  | OpTime elapsed => set_now (now s + Z.of_N elapsed) s
  end.

(** The operations of a history, oldest first. *)
Definition run (ops : list Op) (s : Scheduler) : Scheduler :=
  foldl (λ s op, step op s) s ops.

(** Whether an operation, done in state [s], is a successful
    registration, and how many of a history are. *)
Definition is_registration (op : Op) (s : Scheduler) : bool :=
  match op with
  | OpSchedule taskId schedule task options =>
    success (fst (scheduleTask taskId schedule task options s))
  | _ => false
  end.

Fixpoint registrations (ops : list Op) (s : Scheduler) : Z :=
  match ops with
  | [] => 0
  | op :: ops =>
    (if is_registration op s then 1 else 0) + registrations ops (step op s)
  end.

End Service.

(** The date [calculateNextRun] returns when the clock reads [t]: the
    library's next date, or [t] itself when one of the library calls
    throws. *)
Definition nextRunAt `{Cron} (schedule : string) (timezone : Value) (t : Z)
    : Z :=
  let timezone :=
    match timezone with VUndefined => VStr "UTC" | _ => timezone end in
  match cron_schedule schedule timezone false,
        cron_nextDate schedule timezone t with
  | None, Some nextDate => nextDate
  | _, _ => t
  end.

(** Everything of the service but the handles of the cron library. *)
Definition same_service (s s' : Scheduler) : Prop :=
  maxTasks s' = maxTasks s ∧ tasks s' = tasks s ∧ stats s' = stats s ∧
  now s' = now s ∧ immediates s' = immediates s ∧ events s' = events s.


(** What registration fixes of a task object: a run, a cancellation
    or a new next date leave it alone. *)
Definition same_config (t t' : Task.t) : Prop :=
  Task.id t' = Task.id t ∧ Task.schedule t' = Task.schedule t ∧
  Task.task t' = Task.task t ∧ Task.options t' = Task.options t ∧
  Task.created t' = Task.created t ∧ Task.cronTask t' = Task.cronTask t.


(** ** Two cron libraries to run the service on *)

(** A library that knows the every-minute expression: the next date is
    the next full minute (60000 ms). *)
Definition minute_cron : Cron := {|
  cron_validate e := String.eqb e "* * * * *";
  cron_schedule _ _ _ := None;
  cron_nextDate _ _ t := Some ((t `div` 60000 + 1) * 60000)
|}.


(** ** Sample services *)

Definition every_minute : string := "* * * * *".

(** [() => 7], [() => { throw new Error('boom') }] and
    [() => Promise.reject()]. *)
Definition returns_seven : Value := VFunction (Resolved (VNum 7)).
Definition throws_boom : Value := VFunction (Raised (error_object "boom")).
Definition rejects_bare : Value := VFunction (Raised VUndefined).

(** A service with the default limit, started at second 1. *)
Definition fresh_service : Scheduler := new_service None 1000.

(** [fresh_service] after [scheduleTask(taskId, '* * * * *', task)]. *)
Definition service_with (taskId : string) (task : Value) : Scheduler :=
  snd (@scheduleTask minute_cron taskId every_minute task ∅ fresh_service).

(** ** The rest of the query surface *)

(** The projection of a task object that [getTaskInfo] and [listTasks]
    return. *)
Definition task_view (taskObj : Task.t) : TaskView :=
  mkTaskView (Task.id taskObj) (Task.schedule taskObj) (Task.status taskObj)
    (Task.created taskObj) (Task.lastRun taskObj) (Task.nextRun taskObj)
    (Task.options taskObj) (Task.stats taskObj).

(** [listTasks()], the [tasks] array of its result (the call always
    succeeds).  [this.tasks.entries()] goes through the [Map] in the order
    in which its keys were inserted, an order a [gmap] does not keep: it
    is passed beside the state, as [keys]. *)
Definition listTasks (keys : list string) (s : Scheduler) : list TaskView :=
  omap (λ taskId, task_view <$> tasks s !! taskId) keys.

(** The keys of the [Map] in insertion order, from one operation to the
    next: [this.tasks.set] of a new key puts it last, [this.tasks.delete]
    takes the key out. *)
Definition keys_step `{Cron} (op : Op) (s : Scheduler) (keys : list string)
    : list string :=
  match op with
  | OpSchedule taskId schedule task options =>
    if success (fst (scheduleTask taskId schedule task options s))
    then keys ++ [taskId] else keys
  | OpDelete taskId => filter (λ key, key ≠ taskId) keys
  | _ => keys
  end.

Fixpoint keys_after `{Cron} (ops : list Op) (s : Scheduler)
    (keys : list string) : list string :=
  match ops with
  | [] => keys
  | op :: ops => keys_after ops (step op s) (keys_step op s keys)
  end.


(** ** Events and counters *)

(** How many events of a list satisfy [p]. *)
Fixpoint count_events (p : Event → bool) (l : list Event) : Z :=
  match l with
  | [] => 0
  | e :: l => (if p e then 1 else 0) + count_events p l
  end.

Definition is_task_scheduled (e : Event) : bool :=
  match e with task_scheduled _ _ => true | _ => false end.
Definition is_task_running (e : Event) : bool :=
  match e with task_running _ => true | _ => false end.
Definition is_task_completed (e : Event) : bool :=
  match e with task_completed _ _ => true | _ => false end.
Definition is_task_failed (e : Event) : bool :=
  match e with task_failed _ _ => true | _ => false end.
Definition is_task_cancelled (e : Event) : bool :=
  match e with task_cancelled _ => true | _ => false end.
Definition is_task_deleted (e : Event) : bool :=
  match e with task_deleted _ => true | _ => false end.

(** The counters of the service account for the emitted events. *)
Definition events_wf (s : Scheduler) : Prop :=
  scheduled (stats s) = count_events is_task_scheduled (events s) ∧
  cancelled (stats s) = count_events is_task_cancelled (events s) ∧
  completed (stats s) = count_events is_task_completed (events s) ∧
  failed (stats s) = count_events is_task_failed (events s) ∧
  completed (stats s) + failed (stats s) + running (stats s)
    = count_events is_task_running (events s) ∧
  Z.of_nat (size (tasks s))
    = count_events is_task_scheduled (events s)
      - count_events is_task_deleted (events s).


(** Every task object is registered under its own id, and its handle is
    the one the library made for it: same schedule, same timezone, and a
    callback that runs this id. *)
Definition handles_wf (s : Scheduler) : Prop :=
  ∀ taskId t, tasks s !! taskId = Some t →
    Task.id t = taskId ∧
    ∃ c, cronTasks s !! Task.cronTask t = Some c ∧
      callback c = Some taskId ∧
      expression c = Task.schedule t ∧
      timezone c = prop (Task.options t) "timezone".

(** What stays of a handle of the library: what it was made with; it
    can be stopped and is never started again. *)
Definition handle_kept (c c' : CronTask) : Prop :=
  expression c' = expression c ∧ timezone c' = timezone c ∧
  callback c' = callback c ∧ (active c' = true → active c = true).

Definition handles_kept (s s' : Scheduler) : Prop :=
  ∀ h c, cronTasks s !! h = Some c →
    ∃ c', cronTasks s' !! h = Some c' ∧ handle_kept c c'.

(** The keys passed beside a state are the keys of its [Map]. *)
Definition keys_wf (keys : list string) (s : Scheduler) : Prop :=
  NoDup keys ∧ ∀ taskId, taskId ∈ keys ↔ is_Some (tasks s !! taskId).

(** * Properties *)

(** ** Handles of the cron library *)

Lemma size_alter {A} (f : A → A) (k : string) (m : gmap string A) :
  size (alter f k m) = size m.
Proof. by rewrite <- !size_dom, dom_alter_L. Qed.

Lemma trigger_active_new c s h :
  active c = false →
  trigger_active (new_cronTask c s) h = trigger_active s h.
Proof.
  intros Hc. unfold trigger_active, new_cronTask. simpl.
  destruct (decide (h < length (cronTasks s))%nat) as [Hlt|Hge].
  - by rewrite lookup_app_l.
  - rewrite lookup_app_r by lia.
    rewrite (lookup_ge_None_2 (cronTasks s)) by lia.
    by destruct (h - length (cronTasks s))%nat.
Qed.

Lemma trigger_active_stop h s h' :
  trigger_active (stop_cronTask h s) h' =
  if decide (h = h') then false else trigger_active s h'.
Proof.
  unfold trigger_active, stop_cronTask. simpl.
  case_decide as Hh.
  - subst. rewrite list_lookup_alter_eq.
    by destruct (cronTasks s !! h').
  - by rewrite list_lookup_alter_ne.
Qed.

Lemma trigger_active_stop_idle h s h' :
  trigger_active s h = false →
  trigger_active (stop_cronTask h s) h' = trigger_active s h'.
Proof.
  intros Hidle. rewrite trigger_active_stop. case_decide; by subst.
Qed.

Lemma trigger_active_lt s h :
  trigger_active s h = true → (h < length (cronTasks s))%nat.
Proof.
  unfold trigger_active. destruct (cronTasks s !! h) eqn:E; [|done].
  intros _. by eapply lookup_lt_Some.
Qed.

Section Facts.
Context `{Cron}.

(** ** [calculateNextRun] *)

Lemma calculateNextRun_date schedule tz s :
  fst (calculateNextRun schedule tz s) = nextRunAt schedule tz (now s).
Proof.
  unfold calculateNextRun, nextRunAt.
  destruct (cron_schedule _ _ false); [done|]. simpl.
  by destruct (cron_nextDate _ _ _).
Qed.

Lemma calculateNextRun_frame schedule tz s :
  same_service s (snd (calculateNextRun schedule tz s)).
Proof.
  unfold calculateNextRun, same_service.
  destruct (cron_schedule _ _ false); [done|]. simpl.
  by destruct (cron_nextDate _ _ _).
Qed.

Lemma calculateNextRun_triggers schedule tz s h :
  trigger_active (snd (calculateNextRun schedule tz s)) h =
  trigger_active s h.
Proof.
  unfold calculateNextRun.
  destruct (cron_schedule _ _ false); [done|]. simpl.
  destruct (cron_nextDate _ _ _); simpl.
  - rewrite trigger_active_stop_idle; [by apply trigger_active_new|].
    rewrite trigger_active_new by done.
    destruct (trigger_active s _) eqn:E; [|done].
    apply trigger_active_lt in E. lia.
  - by apply trigger_active_new.
Qed.

Lemma calculateNextRun_handles schedule tz s h c :
  cronTasks s !! h = Some c →
  cronTasks (snd (calculateNextRun schedule tz s)) !! h = Some c.
Proof.
  intros Hh. pose proof (lookup_lt_Some _ _ _ Hh) as Hlt.
  unfold calculateNextRun.
  destruct (cron_schedule _ _ false); [done|]. simpl.
  destruct (cron_nextDate _ _ _); simpl.
  - rewrite list_lookup_alter_ne by lia. by rewrite lookup_app_l.
  - by rewrite lookup_app_l.
Qed.

Lemma calculateNextRun_length schedule tz s :
  (length (cronTasks s) ≤
   length (cronTasks (snd (calculateNextRun schedule tz s))))%nat.
Proof.
  unfold calculateNextRun.
  destruct (cron_schedule _ _ false); [done|]. simpl.
  destruct (cron_nextDate _ _ _); simpl;
    rewrite ?length_alter, length_app; lia.
Qed.

End Facts.

(** Names the result of the next [calculateNextRun] of the goal and
    records what that call leaves unchanged. *)
Ltac next_run :=
  match goal with
  | |- context [calculateNextRun ?e ?tz ?s] =>
    let Hdate := fresh "Hdate" in
    let Hframe := fresh "Hframe" in
    let Htrig := fresh "Htrig" in
    pose proof (calculateNextRun_date e tz s) as Hdate;
    pose proof (calculateNextRun_frame e tz s) as Hframe;
    pose proof (calculateNextRun_triggers e tz s) as Htrig;
    destruct (calculateNextRun e tz s) as [? ?];
    simpl in Hdate, Hframe, Htrig;
    destruct Hframe as (?&?&?&?&?&?)
  end.

Section Effects.
Context `{Cron}.

(** ** What [runTask] touches *)

Lemma runTask_tasks taskId s :
  ∃ f, tasks (snd (runTask taskId s)) = alter f taskId (tasks s) ∧
       (∀ t, same_config t (f t)) ∧
       (∀ t, Task.status (f t) ≠ "cancelled").
Proof.
  unfold runTask. destruct (tasks s !! taskId) as [t|] eqn:Ht.
  2:{ exists (Task.set_status "completed"). split_and!; [|done|done].
      simpl. by rewrite alter_id'. }
  unfold runTask_settle, refresh_nextRun, runTask_enter, update_task.
  destruct (invoke (Task.task t)) as [result|error]; simpl.
  - rewrite !lookup_alter_eq, Ht. simpl. next_run. simpl.
    match goal with Htasks : tasks _ = _ |- _ => rewrite Htasks end.
    simpl. rewrite !alter_alter_eq.
    eexists. split_and!; [reflexivity|by intros []|by intros []].
  - destruct (get error "message") as [message|]; simpl.
    + rewrite !lookup_alter_eq, Ht. simpl. next_run. simpl.
      match goal with Htasks : tasks _ = _ |- _ => rewrite Htasks end.
      simpl. rewrite !alter_alter_eq.
      eexists. split_and!; [reflexivity|by intros []|by intros []].
    + rewrite !alter_alter_eq.
      eexists. split_and!; [reflexivity|by intros []|by intros []].
Qed.

Lemma runTask_frame taskId s :
  maxTasks (snd (runTask taskId s)) = maxTasks s ∧
  now (snd (runTask taskId s)) = now s ∧
  immediates (snd (runTask taskId s)) = immediates s ∧
  scheduled (stats (snd (runTask taskId s))) = scheduled (stats s) ∧
  cancelled (stats (snd (runTask taskId s))) = cancelled (stats s).
Proof.
  unfold runTask. destruct (tasks s !! taskId) as [t|] eqn:Ht; [|done].
  unfold runTask_settle, refresh_nextRun, runTask_enter, update_task.
  destruct (invoke (Task.task t)) as [result|error]; simpl.
  - rewrite !lookup_alter_eq, Ht. simpl. next_run. simpl.
    match goal with Hstats : stats _ = _ |- _ => rewrite Hstats end.
    by repeat split.
  - destruct (get error "message") as [message|]; simpl; [|done].
    rewrite !lookup_alter_eq, Ht. simpl. next_run. simpl.
    match goal with Hstats : stats _ = _ |- _ => rewrite Hstats end.
    by repeat split.
Qed.




(** ** What [scheduleTask] does *)

(** A call of [scheduleTask] either fails and changes nothing, or passes
    the three checks and registers the new task object. *)
Lemma scheduleTask_cases taskId schedule task options s :
  let r := scheduleTask taskId schedule task options s in
  let tz := prop (task_options options) "timezone" in
  let next := nextRunAt schedule tz (now s) in
  (success (fst r) = false ∧ snd r = s) ∨
  (∃ handler,
     tasks s !! taskId = None ∧
     Z.of_nat (size (tasks s)) < maxTasks s ∧
     cron_validate schedule = true ∧
     task_handler task = Some handler ∧
     cron_schedule schedule tz true = None ∧
     fst r = Scheduled taskId next ∧
     tasks (snd r) =
       <[taskId := new_taskObj taskId schedule handler (task_options options)
                     (now s) (Some next) (length (cronTasks s))]> (tasks s) ∧
     stats (snd r) = incr_scheduled (stats s) ∧
     maxTasks (snd r) = maxTasks s ∧
     now (snd r) = now s ∧
     events (snd r) = events s ++ [task_scheduled taskId schedule] ∧
     immediates (snd r) =
       (if truthy (prop (task_options options) "runOnStart")
        then immediates s ++ [taskId] else immediates s) ∧
     ∀ h, trigger_active (snd r) h =
          if decide (h = length (cronTasks s)) then true
          else trigger_active s h).
Proof.
  intros r tz next. subst r. unfold scheduleTask.
  case_bool_decide as Hdup; [by left|].
  destruct (maxTasks s <=? Z.of_nat (size (tasks s))) eqn:Hlimit; [by left|].
  destruct (cron_validate schedule) eqn:Hvalid; simpl; [|by left].
  destruct (task_handler task) as [handler|] eqn:Hhandler; [|by left].
  fold tz.
  destruct (cron_schedule schedule tz true) eqn:Hcron; [by left|].
  right. exists handler.
  unfold refresh_nextRun, update_task. simpl.
  rewrite lookup_insert_eq. simpl. fold tz. next_run.
  assert (tasks s !! taskId = None) as Hnone.
  { destruct (tasks s !! taskId) eqn:E; [|done].
    exfalso. apply Hdup. by eexists. }
  simpl in *. subst z.
  split_and!; try done; try lia;
    try (destruct (truthy (prop (task_options options) "runOnStart"));
         simpl; congruence).
  - destruct (truthy _); simpl;
      match goal with Htasks : tasks s0 = _ |- _ => rewrite Htasks end;
      by rewrite alter_insert_eq.
  - intros h.
    transitivity (trigger_active s0 h); [by destruct (truthy _)|].
    rewrite Htrig. unfold trigger_active, new_cronTask. simpl.
    case_decide as Hh.
    + subst h. by rewrite list_lookup_middle.
    + destruct (decide (h < length (cronTasks s))%nat).
      * by rewrite lookup_app_l.
      * rewrite lookup_app_r by lia.
        rewrite (lookup_ge_None_2 (cronTasks s)) by lia.
        destruct (h - length (cronTasks s))%nat eqn:E; [lia|done].
Qed.

End Effects.


Section Histories.
Context `{Cron}.

(** ** What [cancelTask] and [deleteTask] touch *)

Lemma cancelTask_tasks taskId s :
  tasks (snd (cancelTask taskId s)) =
  alter (Task.set_status "cancelled") taskId (tasks s).
Proof.
  unfold cancelTask. destruct (tasks s !! taskId) eqn:Ht; simpl; [done|].
  by rewrite alter_id'.
Qed.

Lemma cancelTask_frame taskId s :
  maxTasks (snd (cancelTask taskId s)) = maxTasks s ∧
  scheduled (stats (snd (cancelTask taskId s))) = scheduled (stats s).
Proof. unfold cancelTask. by destruct (tasks s !! taskId). Qed.

Lemma deleteTask_tasks taskId s :
  tasks (snd (deleteTask taskId s)) = delete taskId (tasks s).
Proof.
  unfold deleteTask. destruct (tasks s !! taskId) eqn:Ht; simpl; [done|].
  by rewrite delete_id.
Qed.

Lemma deleteTask_frame taskId s :
  maxTasks (snd (deleteTask taskId s)) = maxTasks s ∧
  stats (snd (deleteTask taskId s)) = stats s.
Proof. unfold deleteTask. by destruct (tasks s !! taskId). Qed.

(** ** One operation *)

(** An operation keeps the limit, and either changes one registered task
    object in place, or removes one, or is a successful registration. *)
Lemma step_cases op s :
  maxTasks (step op s) = maxTasks s ∧
  ((∃ taskId f,
      tasks (step op s) = alter f taskId (tasks s) ∧
      (∀ t, same_config t (f t)) ∧
      scheduled (stats (step op s)) = scheduled (stats s)) ∨
   (∃ taskId,
      op = OpDelete taskId ∧
      tasks (step op s) = delete taskId (tasks s) ∧
      scheduled (stats (step op s)) = scheduled (stats s)) ∨
   (∃ taskId schedule task options t,
      op = OpSchedule taskId schedule task options ∧
      tasks s !! taskId = None ∧
      Z.of_nat (size (tasks s)) < maxTasks s ∧
      cron_validate schedule = true ∧
      Task.schedule t = schedule ∧
      tasks (step op s) = <[taskId := t]> (tasks s) ∧
      scheduled (stats (step op s)) = scheduled (stats s) + 1)).
Proof.
  assert (∀ s' : Scheduler, tasks s' = tasks s →
            stats s' = stats s →
            ∃ (taskId : string) (f : Task.t → Task.t),
              tasks s' = alter f taskId (tasks s) ∧
              (∀ t, same_config t (f t)) ∧
              scheduled (stats s') = scheduled (stats s)) as Hsame.
  { intros s' Htasks Hstats. exists "", (λ t, t).
    rewrite alter_id by done. by rewrite Htasks, Hstats. }
  assert (∀ taskId s0, maxTasks s0 = maxTasks s → tasks s0 = tasks s →
            stats s0 = stats s →
            maxTasks (snd (runTask taskId s0)) = maxTasks s ∧
            ∃ (taskId' : string) (f : Task.t → Task.t),
              tasks (snd (runTask taskId s0)) = alter f taskId' (tasks s) ∧
              (∀ t, same_config t (f t)) ∧
              scheduled (stats (snd (runTask taskId s0))) =
                scheduled (stats s)) as Hrun.
  { intros taskId s0 Hmax Htasks Hstats.
    destruct (runTask_frame taskId s0) as (?&?&?&?&?).
    destruct (runTask_tasks taskId s0) as (f&?&?&_).
    split; [congruence|]. exists taskId, f. split_and!; [|done|]; congruence. }
  destruct op as [taskId schedule task options|taskId|taskId|taskId|h| |d];
    simpl.
  - pose proof (scheduleTask_cases taskId schedule task options s) as Hcases.
    simpl in Hcases.
    destruct Hcases as [[_ ->]|(handler&?&?&?&?&?&?&Htasks&Hstats&?&?)].
    + split; [done|]. left. by apply Hsame.
    + split; [done|]. right. right.
      exists taskId, schedule, task, options,
        (new_taskObj taskId schedule handler (task_options options) (now s)
           (Some (nextRunAt schedule (prop (task_options options) "timezone")
                    (now s)))
           (length (cronTasks s))).
      rewrite Htasks, Hstats. by split_and!.
  - destruct (Hrun taskId s) as [? ?]; try done. split; [done|]. by left.
  - destruct (cancelTask_frame taskId s) as [? ?]. split; [done|]. left.
    exists taskId, (Task.set_status "cancelled").
    split_and!; [apply cancelTask_tasks| by intros []|done].
  - destruct (deleteTask_frame taskId s) as [? Hstats]. split; [done|].
    right. left. exists taskId.
    split_and!; [done|apply deleteTask_tasks|by rewrite Hstats].
  - destruct (cronTasks s !! h) as [[? ? [taskId|] []]|];
      try (split; [done|]; left; by apply Hsame).
    destruct (Hrun taskId s) as [? ?]; try done. split; [done|]. by left.
  - destruct (immediates s) as [|taskId rest];
      [split; [done|]; left; by apply Hsame|].
    destruct (Hrun taskId (set_immediates rest s)) as [? ?]; try done.
    split; [done|]. by left.
  - split; [done|]. left. by apply Hsame.
Qed.

Lemma run_snoc ops op s : run (ops ++ [op]) s = step op (run ops s).
Proof. unfold run. by rewrite foldl_app. Qed.

Lemma run_maxTasks ops s : maxTasks (run ops s) = maxTasks s.
Proof.
  induction ops as [|op ops IH] using rev_ind; [done|].
  rewrite run_snoc. by destruct (step_cases op (run ops s)) as [-> _].
Qed.

End Histories.

Section Run.
Context `{Cron}.

(** ** [runTask] on a handler that resolves *)


End Run.


Section Failure.
Context `{Cron}.

(** ** [runTask] on a handler that raises *)

(** A run mutates the task it runs and no other. *)
Lemma runTask_other taskId s taskId' :
  taskId ≠ taskId' →
  tasks (snd (runTask taskId s)) !! taskId' = tasks s !! taskId'.
Proof.
  intros Hne. destruct (runTask_tasks taskId s) as (f&->&_).
  by rewrite lookup_alter_ne.
Qed.


(** C2, the code at a handler that raises [undefined] or [null] (as
    [() => Promise.reject()] does).  The task is marked ["failed"] and its
    [errors] counted, then reading [error.message] throws: the call
    returns that [TypeError]'s message without a task id, [running] stays
    one above its prior value, [failed] is not counted, and neither
    [lastError] nor [nextRun] is written. *)
Theorem runTask_raised_nullish taskId s t error :
  tasks s !! taskId = Some t →
  invoke (Task.task t) = Raised error →
  is_nullish error = true →
  fst (runTask taskId s) = Failure (VStr (read_error error "message")) ∧
  (∃ t', tasks (snd (runTask taskId s)) !! taskId = Some t' ∧
     Task.status t' = "failed" ∧
     errors (Task.stats t') = errors (Task.stats t) + 1 ∧
     Task.lastError t' = Task.lastError t ∧
     Task.nextRun t' = Task.nextRun t) ∧
  running (stats (snd (runTask taskId s))) = running (stats s) + 1 ∧
  failed (stats (snd (runTask taskId s))) = failed (stats s).
Proof.
  intros Ht Hraised Hnull.
  assert (get error "message" = None) as Hmessage by by destruct error.
  unfold runTask. rewrite Ht, Hraised.
  unfold runTask_settle. rewrite Hmessage.
  unfold runTask_enter, update_task. simpl.
  split_and!; try done.
  eexists. split; [by rewrite !lookup_alter_eq, Ht|]. done.
Qed.

(** ** Registering an id twice *)

(** The first check of [scheduleTask]. *)
Lemma scheduleTask_registered taskId schedule task options s :
  is_Some (tasks s !! taskId) →
  scheduleTask taskId schedule task options s = (Failure DuplicateTaskId, s).
Proof.
  intros Ht. unfold scheduleTask. by rewrite bool_decide_eq_true_2.
Qed.

(** C3. When [taskId] is registered, [scheduleTask] with that id fails
    with [DuplicateTaskId] and leaves the whole service as it was: the
    registered task keeps its schedule, handler, options and stats, and
    [getTaskInfo] answers as before. *)
Theorem scheduleTask_duplicate taskId schedule task options s t :
  tasks s !! taskId = Some t →
  scheduleTask taskId schedule task options s = (Failure DuplicateTaskId, s) ∧
  tasks (snd (scheduleTask taskId schedule task options s)) !! taskId
    = Some t ∧
  getTaskInfo taskId (snd (scheduleTask taskId schedule task options s))
    = getTaskInfo taskId s.
Proof.
  intros Ht.
  rewrite scheduleTask_registered by (by eexists). by split_and!.
Qed.

(** A successful registration makes a second one with the same id fail. *)
Lemma scheduleTask_twice taskId schedule task options schedule' task'
    options' s :
  success (fst (scheduleTask taskId schedule task options s)) = true →
  scheduleTask taskId schedule' task' options'
    (snd (scheduleTask taskId schedule task options s)) =
  (Failure DuplicateTaskId, snd (scheduleTask taskId schedule task options s)).
Proof.
  intros Hok.
  pose proof (scheduleTask_cases taskId schedule task options s) as Hcases.
  simpl in Hcases.
  destruct Hcases as [[Hfail _]|(handler&_&_&_&_&_&_&Htasks&_)];
    [congruence|].
  apply scheduleTask_registered. rewrite Htasks, lookup_insert_eq.
  by eexists.
Qed.

End Failure.

Lemma runTask_raised_nullish_witness :
  running (stats (snd (@runTask minute_cron "t2"
                         (service_with "t2" rejects_bare)))) = 1 ∧
  failed (stats (snd (@runTask minute_cron "t2"
                        (service_with "t2" rejects_bare)))) = 0.
Proof.
  refine (proj2 (proj2 (@runTask_raised_nullish minute_cron "t2"
                          (service_with "t2" rejects_bare) _ VUndefined
                          _ _ _)));
    vm_compute; reflexivity.
Defined.

Lemma scheduleTask_duplicate_witness :
  fst (@scheduleTask minute_cron "t1" "0 0 * * *" throws_boom ∅
         (service_with "t1" returns_seven)) = Failure DuplicateTaskId.
Proof.
  refine (f_equal fst (proj1 (@scheduleTask_duplicate minute_cron "t1"
                                "0 0 * * *" throws_boom ∅
                                (service_with "t1" returns_seven) _ _))).
  vm_compute. reflexivity.
Defined.

Section Limits.
Context `{Cron}.

(** ** The task limit *)

(** A failed registration changes nothing. *)
Lemma scheduleTask_failure taskId schedule task options s :
  success (fst (scheduleTask taskId schedule task options s)) = false →
  snd (scheduleTask taskId schedule task options s) = s.
Proof.
  intros Hfail.
  pose proof (scheduleTask_cases taskId schedule task options s) as Hcases.
  simpl in Hcases. destruct Hcases as [[_ ?]|(handler&_&_&_&_&_&Hok&_)];
    [done|].
  by rewrite Hok in Hfail.
Qed.

Lemma step_size op s :
  Z.of_nat (size (tasks s)) ≤ maxTasks s →
  Z.of_nat (size (tasks (step op s))) ≤ maxTasks (step op s).
Proof.
  intros Hle. destruct (step_cases op s) as [-> Hcases].
  destruct Hcases as
    [(taskId&f&->&_)|[(taskId&_&->&_)|(taskId&e&task&o&t&_&Hnone&?&_&_&->&_)]].
  - by rewrite size_alter.
  - destruct (tasks s !! taskId) eqn:Ht.
    + rewrite map_size_delete_Some by done. lia.
    + rewrite map_size_delete_None by done. lia.
  - rewrite map_size_insert_None by done. lia.
Qed.

Lemma run_size ops s :
  Z.of_nat (size (tasks s)) ≤ maxTasks s →
  Z.of_nat (size (tasks (run ops s))) ≤ maxTasks (run ops s).
Proof.
  intros Hle. induction ops as [|op ops IH] using rev_ind; [done|].
  rewrite run_snoc. by apply step_size.
Qed.

(** C4, as the code has it.  From a service whose registry is within its
    limit (a new service is, when its limit is not negative), no history
    of operations takes the registry above [maxTasks]; and when the
    registry has reached the limit, [scheduleTask] fails and changes
    nothing, so [taskCount] stays; the error is [TaskLimitExceeded] when
    the id is not registered yet, and [DuplicateTaskId] when it is (the
    check made before). *)
Theorem scheduleTask_limit s ops taskId schedule task options :
  Z.of_nat (size (tasks s)) ≤ maxTasks s →
  Z.of_nat (taskCount (getStats (run ops s))) ≤
    stat_maxTasks (getStats (run ops s)) ∧
  stat_maxTasks (getStats (run ops s)) = maxTasks s ∧
  (Z.of_nat (taskCount (getStats (run ops s))) =
     stat_maxTasks (getStats (run ops s)) →
   success (fst (scheduleTask taskId schedule task options (run ops s)))
     = false ∧
   snd (scheduleTask taskId schedule task options (run ops s)) = run ops s ∧
   (tasks (run ops s) !! taskId = None →
    fst (scheduleTask taskId schedule task options (run ops s)) =
    Failure TaskLimitExceeded) ∧
   (is_Some (tasks (run ops s) !! taskId) →
    fst (scheduleTask taskId schedule task options (run ops s)) =
    Failure DuplicateTaskId)).
Proof.
  intros Hle. simpl. split_and!.
  - by apply run_size.
  - apply run_maxTasks.
  - intros Hfull. unfold getStats in Hfull. simpl in Hfull.
    assert (success (fst (scheduleTask taskId schedule task options
                            (run ops s))) = false ∧
            (tasks (run ops s) !! taskId = None →
             fst (scheduleTask taskId schedule task options (run ops s)) =
             Failure TaskLimitExceeded)) as [Hfail Herror].
    { unfold scheduleTask. case_bool_decide as Hdup.
      - split; [done|]. intros Hnone. rewrite Hnone in Hdup.
        by destruct Hdup.
      - rewrite (proj2 (Z.leb_le _ _)) by lia. done. }
    split_and!; [done| by apply scheduleTask_failure | done |].
    intros Hsome. by rewrite scheduleTask_registered.
Qed.

(** ** Invalid schedule expressions *)

(** Every registered schedule validates, from one operation to the
    next. *)
Lemma step_valid op s :
  (∀ taskId t, tasks s !! taskId = Some t →
     cron_validate (Task.schedule t) = true) →
  ∀ taskId t, tasks (step op s) !! taskId = Some t →
    cron_validate (Task.schedule t) = true.
Proof.
  intros Hvalid taskId t. destruct (step_cases op s) as [_ Hcases].
  destruct Hcases as
    [(taskId'&f&->&Hf&_)|
     [(taskId'&_&->&_)|(taskId'&e&task&o&t'&_&_&_&?&?&->&_)]].
  - rewrite lookup_alter. case_decide; [subst taskId'|by apply Hvalid].
    destruct (tasks s !! taskId) as [t0|] eqn:Ht0; [simpl|done].
    intros [= <-]. destruct (Hf t0) as (_&->&_). by eapply Hvalid.
  - rewrite lookup_delete. case_decide; [done|]. by apply Hvalid.
  - rewrite lookup_insert. case_decide; [|by apply Hvalid].
    intros [= <-]. congruence.
Qed.

Lemma run_valid ops limit t0 taskId t :
  tasks (run ops (new_service limit t0)) !! taskId = Some t →
  cron_validate (Task.schedule t) = true.
Proof.
  revert taskId t. induction ops as [|op ops IH] using rev_ind.
  - intros taskId t. simpl. by rewrite lookup_empty.
  - intros taskId t. rewrite run_snoc. by apply step_valid.
Qed.

(** C5, as the code has it.  For a schedule that fails [cron.validate],
    [scheduleTask] fails and leaves the service as it was (no task
    object, no handle, no counter, no event); the error is
    [InvalidScheduleExpression] when the id is new and the registry below
    its limit, and otherwise that of the check made before:
    [DuplicateTaskId], then [TaskLimitExceeded].  No history of a new
    service registers a task with that schedule. *)
Theorem scheduleTask_invalid schedule taskId task options s :
  cron_validate schedule = false →
  success (fst (scheduleTask taskId schedule task options s)) = false ∧
  snd (scheduleTask taskId schedule task options s) = s ∧
  (tasks s !! taskId = None →
   Z.of_nat (size (tasks s)) < maxTasks s →
   fst (scheduleTask taskId schedule task options s) =
   Failure InvalidScheduleExpression) ∧
  (tasks s !! taskId = None →
   maxTasks s ≤ Z.of_nat (size (tasks s)) →
   fst (scheduleTask taskId schedule task options s) =
   Failure TaskLimitExceeded) ∧
  (is_Some (tasks s !! taskId) →
   fst (scheduleTask taskId schedule task options s) =
   Failure DuplicateTaskId) ∧
  (∀ ops limit t0 taskId' t,
     tasks (run ops (new_service limit t0)) !! taskId' = Some t →
     Task.schedule t ≠ schedule).
Proof.
  intros Hinvalid.
  assert (success (fst (scheduleTask taskId schedule task options s))
          = false ∧
          (tasks s !! taskId = None →
           Z.of_nat (size (tasks s)) < maxTasks s →
           fst (scheduleTask taskId schedule task options s) =
           Failure InvalidScheduleExpression)) as [Hfail Herror].
  { unfold scheduleTask. case_bool_decide as Hdup.
    { split; [done|]. intros Hnone. rewrite Hnone in Hdup.
      by destruct Hdup. }
    destruct (maxTasks s <=? Z.of_nat (size (tasks s))) eqn:Hlimit.
    { split; [done|]. intros _ Hlt. apply Z.leb_le in Hlimit. lia. }
    by rewrite Hinvalid. }
  split_and!; [done|by apply scheduleTask_failure|done| | |].
  - intros Hnone Hfull. unfold scheduleTask.
    rewrite bool_decide_eq_false_2 by (rewrite Hnone; by intros [? ?]).
    by rewrite (proj2 (Z.leb_le _ _)).
  - intros Hsome. by rewrite scheduleTask_registered.
  - intros ops limit t0 taskId' t Ht Heq.
    apply run_valid in Ht. congruence.
Qed.

End Limits.

(** C4 as stated fails on the order of the checks: with the registry at
    its limit of one task, scheduling the registered id again answers
    [DuplicateTaskId], not [TaskLimitExceeded].  (And a service made with
    the limit -1 holds its zero tasks above that limit.) *)
Lemma limit_reached_duplicate_id :
  let s := snd (@scheduleTask minute_cron "t1" every_minute returns_seven ∅
                  (new_service (Some 1) 1000)) in
  (Z.of_nat (taskCount (getStats s)) = stat_maxTasks (getStats s) ∧
   fst (@scheduleTask minute_cron "t1" every_minute returns_seven ∅ s) ≠
   Failure TaskLimitExceeded) ∧
  stat_maxTasks (getStats (new_service (Some (-1)) 1000)) <
  Z.of_nat (taskCount (getStats (new_service (Some (-1)) 1000))).
Proof. vm_compute. split; [split; [reflexivity|discriminate]|reflexivity]. Qed.

Lemma scheduleTask_limit_witness :
  fst (@scheduleTask minute_cron "t2" every_minute returns_seven ∅
         (@run minute_cron
            [OpSchedule "t1" every_minute returns_seven ∅]
            (new_service (Some 1) 1000))) =
  Failure TaskLimitExceeded.
Proof.
  refine (proj1 (proj2 (proj2 (proj2 (proj2
            (@scheduleTask_limit minute_cron (new_service (Some 1) 1000)
               [OpSchedule "t1" every_minute returns_seven ∅]
               "t2" every_minute returns_seven ∅ _)) _))) _);
    vm_compute; try reflexivity; discriminate.
Defined.

(** C5 as stated fails on the order of the checks: an invalid schedule
    given with a registered id answers [DuplicateTaskId]. *)
Lemma invalid_schedule_duplicate_id :
  @cron_validate minute_cron "every minute" = false ∧
  fst (@scheduleTask minute_cron "t1" "every minute" returns_seven ∅
         (service_with "t1" returns_seven)) ≠
  Failure InvalidScheduleExpression.
Proof. vm_compute. split; [reflexivity|discriminate]. Qed.

Lemma scheduleTask_invalid_witness :
  fst (@scheduleTask minute_cron "t2" "every minute" returns_seven ∅
         (service_with "t1" returns_seven)) =
  Failure InvalidScheduleExpression.
Proof.
  refine (proj1 (proj2 (proj2
            (@scheduleTask_invalid minute_cron "every minute" "t2"
               returns_seven ∅ (service_with "t1" returns_seven) _))) _ _);
    vm_compute; reflexivity.
Defined.

Section Registration.
Context `{Cron}.

(** ** The next run after a registration *)


(** With a library whose next dates are in the future the registered
    [nextRun] is after the clock reading exactly when the library calls
    succeed. *)
Lemma nextRunAt_future schedule tz t :
  (∀ e z t' d, cron_nextDate e z t' = Some d → t' < d) →
  t ≤ nextRunAt schedule tz t.
Proof.
  intros Hfuture. unfold nextRunAt.
  destruct (cron_schedule _ _ false); [lia|].
  destruct (cron_nextDate _ _ _) as [d|] eqn:Hd; [|lia].
  apply Hfuture in Hd. lia.
Qed.

(** ** Handlers are not validated *)


End Registration.





Section Deletion.
Context `{Cron}.

(** ** Deleted tasks *)




(** ** Service counters and deletion *)

Lemma step_scheduled op s :
  scheduled (stats (step op s)) =
  scheduled (stats s) + (if is_registration op s then 1 else 0).
Proof.
  destruct (is_registration op s) eqn:Hreg.
  - destruct op as [taskId schedule task options| | | | | |]; try done.
    simpl in *.
    pose proof (scheduleTask_cases taskId schedule task options s) as Hcases.
    simpl in Hcases.
    destruct Hcases as [[Hfail _]|(handler&_&_&_&_&_&_&_&->&_)];
      [congruence|done].
  - destruct (step_cases op s) as [_ Hcases].
    destruct Hcases as
      [(taskId'&f&_&_&->)|
       [(taskId'&_&_&->)|(taskId'&e&task&o&t'&->&_&_&_&_&_&Hsched)]];
      [lia|lia|].
    simpl in *.
    pose proof (scheduleTask_cases taskId' e task o s) as Hcases.
    simpl in Hcases.
    destruct Hcases as [[_ Hsame]|(handler&_&_&_&_&_&Hreply&_)].
    + rewrite Hsame in Hsched. lia.
    + by rewrite Hreply in Hreg.
Qed.

Lemma registrations_nonneg ops s : 0 ≤ registrations ops s.
Proof.
  revert s. induction ops as [|op ops IH]; intros s; simpl; [done|].
  specialize (IH (step op s)). destruct (is_registration op s); lia.
Qed.

Lemma run_scheduled ops s :
  scheduled (stats (run ops s)) = scheduled (stats s) + registrations ops s.
Proof.
  revert s. induction ops as [|op ops IH]; intros s; simpl; [lia|].
  fold (run ops (step op s)). rewrite IH, step_scheduled. lia.
Qed.

Lemma step_size_scheduled op s :
  Z.of_nat (size (tasks s)) ≤ scheduled (stats s) →
  Z.of_nat (size (tasks (step op s))) ≤ scheduled (stats (step op s)).
Proof.
  intros Hle. destruct (step_cases op s) as [_ Hcases].
  destruct Hcases as
    [(taskId&f&->&_&->)|
     [(taskId&_&->&->)|(taskId&e&task&o&t&_&Hnone&_&_&_&->&->)]].
  - by rewrite size_alter.
  - destruct (tasks s !! taskId) eqn:Ht.
    + rewrite map_size_delete_Some by done. lia.
    + rewrite map_size_delete_None by done. lia.
  - rewrite map_size_insert_None by done. lia.
Qed.

Lemma run_size_scheduled ops limit t0 :
  Z.of_nat (size (tasks (run ops (new_service limit t0)))) ≤
  scheduled (stats (run ops (new_service limit t0))).
Proof.
  induction ops as [|op ops IH] using rev_ind; [done|].
  rewrite run_snoc. by apply step_size_scheduled.
Qed.

(** C10. [deleteTask] leaves the five counters reported by [getStats] as
    they were.  No operation lowers [scheduled]: over a history it grows
    by the number of successful registrations.  In a service with a
    history [taskCount] is at most [scheduled], and deleting a registered
    task puts it strictly below. *)
Theorem deleteTask_counters taskId s op ops limit t0 :
  (stat_scheduled (getStats (snd (deleteTask taskId s)))
     = stat_scheduled (getStats s) ∧
   stat_running (getStats (snd (deleteTask taskId s)))
     = stat_running (getStats s) ∧
   stat_completed (getStats (snd (deleteTask taskId s)))
     = stat_completed (getStats s) ∧
   stat_failed (getStats (snd (deleteTask taskId s)))
     = stat_failed (getStats s) ∧
   stat_cancelled (getStats (snd (deleteTask taskId s)))
     = stat_cancelled (getStats s)) ∧
  stat_scheduled (getStats s) ≤ stat_scheduled (getStats (step op s)) ∧
  stat_scheduled (getStats (run ops s))
    = stat_scheduled (getStats s) + registrations ops s ∧
  0 ≤ registrations ops s ∧
  let s' := run ops (new_service limit t0) in
  Z.of_nat (taskCount (getStats s')) ≤ stat_scheduled (getStats s') ∧
  (is_Some (tasks s' !! taskId) →
   Z.of_nat (taskCount (getStats (snd (deleteTask taskId s'))))
   < stat_scheduled (getStats (snd (deleteTask taskId s')))).
Proof.
  unfold getStats. simpl.
  split_and!; try by rewrite (proj2 (deleteTask_frame taskId s)).
  - rewrite step_scheduled. destruct (is_registration op s); lia.
  - apply run_scheduled.
  - apply registrations_nonneg.
  - apply run_size_scheduled.
  - intros Hsome.
    destruct (deleteTask_frame taskId (run ops (new_service limit t0)))
      as [_ Hstats].
    rewrite Hstats, deleteTask_tasks.
    rewrite map_size_delete_Some by done.
    pose proof (run_size_scheduled ops limit t0) as Hle.
    destruct Hsome as [t Ht].
    assert (size (tasks (run ops (new_service limit t0))) ≠ 0%nat).
    { intros Hzero. apply map_size_empty_inv in Hzero.
      rewrite Hzero in Ht. by rewrite lookup_empty in Ht. }
    lia.
Qed.

End Deletion.


Lemma deleteTask_counters_witness :
  Z.of_nat (taskCount (getStats
    (snd (@deleteTask "t1" (service_with "t1" returns_seven)))))
  < stat_scheduled (getStats
      (snd (@deleteTask "t1" (service_with "t1" returns_seven)))).
Proof.
  refine (proj2 (proj2 (proj2 (proj2 (proj2
            (@deleteTask_counters minute_cron "t1" fresh_service
               OpImmediate [OpSchedule "t1" every_minute returns_seven ∅]
               None 1000))))) _).
  vm_compute. eexists. reflexivity.
Defined.

Section Cancellation.
Context `{Cron}.

(** ** Cancelled tasks *)

Lemma cancelTask_triggers taskId s t h :
  tasks s !! taskId = Some t →
  trigger_active (snd (cancelTask taskId s)) h =
  if decide (Task.cronTask t = h) then false else trigger_active s h.
Proof.
  intros Ht. unfold cancelTask. rewrite Ht.
  apply (trigger_active_stop (Task.cronTask t) s h).
Qed.

Lemma deleteTask_triggers taskId s t h :
  tasks s !! taskId = Some t →
  trigger_active (snd (deleteTask taskId s)) h =
  if decide (Task.cronTask t = h) then false else trigger_active s h.
Proof.
  intros Ht. unfold deleteTask. rewrite Ht.
  apply (trigger_active_stop (Task.cronTask t) s h).
Qed.



(** [cancelTask] of a registered id succeeds, keeps the task object,
    marks it ["cancelled"] and stops its trigger. *)
Lemma cancelTask_stops taskId s t :
  tasks s !! taskId = Some t →
  fst (cancelTask taskId s) = Done taskId ∧
  tasks (snd (cancelTask taskId s)) !! taskId
    = Some (Task.set_status "cancelled" t) ∧
  trigger_active (snd (cancelTask taskId s)) (Task.cronTask t) = false ∧
  cancelled (stats (snd (cancelTask taskId s))) = cancelled (stats s) + 1.
Proof.
  intros Ht. split_and!.
  - unfold cancelTask. by rewrite Ht.
  - by rewrite cancelTask_tasks, lookup_alter_eq, Ht.
  - rewrite (cancelTask_triggers _ _ t) by done. by rewrite decide_True.
  - unfold cancelTask. by rewrite Ht.
Qed.





End Cancellation.


(** * Further properties of the service *)

Lemma alter_lookup_insert {A} (f : A → A) (k : string) (m : gmap string A) x :
  m !! k = Some x → alter f k m = <[k := f x]> m.
Proof.
  intros Hx. apply map_eq. intros k'. rewrite lookup_alter, lookup_insert.
  case_decide; [|done]. by rewrite Hx.
Qed.

Lemma count_events_app p l1 l2 :
  count_events p (l1 ++ l2) = count_events p l1 + count_events p l2.
Proof. induction l1 as [|e l1 IH]; simpl; [done|]. rewrite IH. lia. Qed.


(** Rewrites the fields of the state named by [next_run]. *)
Ltac frame_rewrite :=
  simpl in *;
  repeat match goal with
  | Heq : tasks ?s0 = _ |- context [tasks ?s0] => is_var s0; rewrite Heq
  | Heq : stats ?s0 = _ |- context [stats ?s0] => is_var s0; rewrite Heq
  | Heq : events ?s0 = _ |- context [events ?s0] => is_var s0; rewrite Heq
  | Heq : now ?s0 = _ |- context [now ?s0] => is_var s0; rewrite Heq
  | Heq : maxTasks ?s0 = _ |- context [maxTasks ?s0] =>
    is_var s0; rewrite Heq
  | Heq : immediates ?s0 = _ |- context [immediates ?s0] =>
    is_var s0; rewrite Heq
  end;
  simpl.

Section Runs.
Context `{Cron}.

(** ** One run, in full *)

(** The three ways a run of a registered task ends, with the task object,
    the counters and the events each leaves. *)
Lemma runTask_cases taskId s t :
  tasks s !! taskId = Some t →
  let s' := snd (runTask taskId s) in
  let next :=
    nextRunAt (Task.schedule t) (prop (Task.options t) "timezone") (now s) in
  scheduled (stats s') = scheduled (stats s) ∧
  cancelled (stats s') = cancelled (stats s) ∧
  match invoke (Task.task t) with
  | Resolved result =>
    fst (runTask taskId s) = Ran taskId result ∧
    tasks s' =
      <[taskId := Task.mk (Task.id t) (Task.schedule t) (Task.task t)
                    (Task.options t) "completed" (Task.created t)
                    (Some (now s)) (Some next)
                    (incr_runs (Task.stats t)) (Task.cronTask t)
                    (Some result) (Task.lastError t)]> (tasks s) ∧
    running (stats s') = running (stats s) ∧
    completed (stats s') = completed (stats s) + 1 ∧
    failed (stats s') = failed (stats s) ∧
    events s' = events s ++ [task_running taskId;
                             task_completed taskId result]
  | Raised error =>
    match get error "message" with
    | Some message =>
      fst (runTask taskId s) = RunFailed taskId message ∧
      tasks s' =
        <[taskId := Task.mk (Task.id t) (Task.schedule t) (Task.task t)
                      (Task.options t) "failed" (Task.created t)
                      (Some (now s)) (Some next)
                      (incr_errors (Task.stats t)) (Task.cronTask t)
                      (Task.lastResult t) (Some message)]> (tasks s) ∧
      running (stats s') = running (stats s) ∧
      completed (stats s') = completed (stats s) ∧
      failed (stats s') = failed (stats s) + 1 ∧
      events s' = events s ++ [task_running taskId;
                               task_failed taskId message]
    | None =>
      fst (runTask taskId s) = Failure (VStr (read_error error "message")) ∧
      tasks s' =
        <[taskId := Task.mk (Task.id t) (Task.schedule t) (Task.task t)
                      (Task.options t) "failed" (Task.created t)
                      (Some (now s)) (Task.nextRun t)
                      (incr_errors (Task.stats t)) (Task.cronTask t)
                      (Task.lastResult t) (Task.lastError t)]> (tasks s) ∧
      running (stats s') = running (stats s) + 1 ∧
      completed (stats s') = completed (stats s) ∧
      failed (stats s') = failed (stats s) ∧
      events s' = events s ++ [task_running taskId]
    end
  end.
Proof.
  intros Ht s' next. subst s'.
  destruct (runTask_frame taskId s) as (_&_&_&Hsched&Hcanc).
  split; [done|]. split; [done|]. clear Hsched Hcanc.
  unfold runTask. rewrite Ht.
  unfold runTask_settle, refresh_nextRun, runTask_enter, update_task.
  destruct (invoke (Task.task t)) as [result|error]; simpl.
  - rewrite !lookup_alter_eq, Ht. simpl. next_run. simpl.
    frame_rewrite. rewrite !alter_alter_eq, (alter_lookup_insert _ _ _ t) by done.
    rewrite <- app_assoc. simpl. subst.
    split_and!; try reflexivity; lia.
  - destruct (get error "message") as [message|]; simpl.
    + rewrite !lookup_alter_eq, Ht. simpl. next_run. simpl.
      frame_rewrite. rewrite !alter_alter_eq, (alter_lookup_insert _ _ _ t) by done.
      rewrite <- app_assoc. simpl. subst.
      split_and!; try reflexivity; lia.
    + rewrite !alter_alter_eq, (alter_lookup_insert _ _ _ t) by done.
      by split_and!.
Qed.

End Runs.

(** ** Handles are kept *)

Lemma handle_kept_refl c : handle_kept c c.
Proof. by split_and!. Qed.

Lemma handles_kept_refl s : handles_kept s s.
Proof. intros h c Hc. exists c. split; [done|apply handle_kept_refl]. Qed.

Lemma handles_kept_trans s1 s2 s3 :
  handles_kept s1 s2 → handles_kept s2 s3 → handles_kept s1 s3.
Proof.
  intros H12 H23 h c Hc.
  destruct (H12 h c Hc) as (c2&Hc2&?&?&?&?).
  destruct (H23 h c2 Hc2) as (c3&Hc3&?&?&?&?).
  exists c3. split; [done|]. split_and!; try congruence. auto.
Qed.

Lemma handles_kept_same s s' :
  cronTasks s' = cronTasks s → handles_kept s s'.
Proof.
  intros Heq h c Hc. exists c. rewrite Heq.
  split; [done|apply handle_kept_refl].
Qed.

Lemma stop_cronTask_kept h s : handles_kept s (stop_cronTask h s).
Proof.
  intros h' c Hc. unfold stop_cronTask. simpl.
  rewrite list_lookup_alter. case_decide.
  - subst h'. rewrite Hc. simpl. eexists. split; [done|].
    unfold handle_kept. simpl. by split_and!.
  - exists c. split; [done|apply handle_kept_refl].
Qed.

Section Handles.
Context `{Cron}.

Lemma runTask_handles_kept taskId s : handles_kept s (snd (runTask taskId s)).
Proof.
  unfold runTask. destruct (tasks s !! taskId) as [t|] eqn:Ht;
    [|apply handles_kept_refl].
  assert (∀ e tz s0 (f : Scheduler → Scheduler),
            cronTasks s0 = cronTasks s →
            (∀ s1, cronTasks (f s1) = cronTasks s1) →
            handles_kept s (f (snd (calculateNextRun e tz s0)))) as Hnext.
  { intros e tz s0 f Hs0 Hf h c Hc. exists c. rewrite Hf.
    split; [|apply handle_kept_refl].
    apply calculateNextRun_handles. by rewrite Hs0. }
  unfold runTask_settle, refresh_nextRun, runTask_enter, update_task.
  destruct (invoke (Task.task t)) as [result|error]; simpl.
  - rewrite !lookup_alter_eq, Ht. simpl.
    match goal with |- context [calculateNextRun ?e ?tz ?s0] =>
      specialize (Hnext e tz s0
        (λ s1, emit (task_completed taskId result)
                 (set_tasks (alter (Task.set_nextRun
                    (Some (fst (calculateNextRun e tz s0)))) taskId
                    (tasks s1)) s1)) eq_refl (λ _, eq_refl));
      destruct (calculateNextRun e tz s0) end.
    exact Hnext.
  - destruct (get error "message") as [message|]; simpl;
      [|by apply handles_kept_same].
    rewrite !lookup_alter_eq, Ht. simpl.
    match goal with |- context [calculateNextRun ?e ?tz ?s0] =>
      specialize (Hnext e tz s0
        (λ s1, emit (task_failed taskId message)
                 (set_tasks (alter (Task.set_nextRun
                    (Some (fst (calculateNextRun e tz s0)))) taskId
                    (tasks s1)) s1)) eq_refl (λ _, eq_refl));
      destruct (calculateNextRun e tz s0) end.
    exact Hnext.
Qed.

Lemma cancelTask_handles_kept taskId s :
  handles_kept s (snd (cancelTask taskId s)).
Proof.
  unfold cancelTask. destruct (tasks s !! taskId) as [t|];
    [|apply handles_kept_refl].
  apply (stop_cronTask_kept (Task.cronTask t) s).
Qed.

Lemma deleteTask_handles_kept taskId s :
  handles_kept s (snd (deleteTask taskId s)).
Proof.
  unfold deleteTask. destruct (tasks s !! taskId) as [t|];
    [|apply handles_kept_refl].
  apply (stop_cronTask_kept (Task.cronTask t) s).
Qed.

(** A registration keeps the handles there are and, when it succeeds,
    makes the handle of the new task, started, after them. *)
Lemma scheduleTask_handles taskId schedule task options s :
  let r := scheduleTask taskId schedule task options s in
  handles_kept s (snd r) ∧
  (success (fst r) = true →
   cronTasks (snd r) !! length (cronTasks s) =
   Some (mkCronTask schedule (prop (task_options options) "timezone")
           (Some taskId) true)).
Proof.
  intros r. subst r. unfold scheduleTask.
  case_bool_decide as Hdup; [by split; [apply handles_kept_refl|]|].
  destruct (maxTasks s <=? Z.of_nat (size (tasks s))) eqn:Hlimit;
    [by split; [apply handles_kept_refl|]|].
  destruct (cron_validate schedule) eqn:Hvalid; simpl;
    [|by split; [apply handles_kept_refl|]].
  destruct (task_handler task) as [handler|] eqn:Hhandler;
    [|by split; [apply handles_kept_refl|]].
  destruct (cron_schedule schedule _ true) eqn:Hcron;
    [by split; [apply handles_kept_refl|]|].
  unfold refresh_nextRun, update_task. simpl.
  rewrite lookup_insert_eq. simpl.
  match goal with |- context [calculateNextRun ?e ?tz ?s0] =>
    pose proof (calculateNextRun_handles e tz s0) as Hkeep;
    destruct (calculateNextRun e tz s0) as [next s1] end.
  simpl in Hkeep.
  split.
  - intros h c Hc. exists c. split; [|apply handle_kept_refl].
    destruct (truthy _); simpl; apply Hkeep;
      (rewrite lookup_app_l; [done|]; by eapply lookup_lt_Some).
  - intros _.
    destruct (truthy _); simpl; apply Hkeep; by rewrite list_lookup_middle.
Qed.

Lemma step_handles_kept op s : handles_kept s (step op s).
Proof.
  destruct op as [taskId schedule task options|taskId|taskId|taskId|h| |d];
    simpl.
  - apply scheduleTask_handles.
  - apply runTask_handles_kept.
  - apply cancelTask_handles_kept.
  - apply deleteTask_handles_kept.
  - destruct (cronTasks s !! h) as [[? ? [taskId|] []]|];
      try apply handles_kept_refl.
    apply runTask_handles_kept.
  - destruct (immediates s) as [|taskId rest]; [apply handles_kept_refl|].
    apply (handles_kept_trans _ (set_immediates rest s));
      [by apply handles_kept_same|apply runTask_handles_kept].
  - by apply handles_kept_same.
Qed.

Lemma run_handles_kept ops s : handles_kept s (run ops s).
Proof.
  induction ops as [|op ops IH] using rev_ind; [apply handles_kept_refl|].
  rewrite run_snoc.
  eapply handles_kept_trans; [exact IH|apply step_handles_kept].
Qed.

End Handles.

Section Invariants.
Context `{Cron}.

(** ** Invariants of a service with a history *)

Lemma runTask_handles_wf taskId s :
  handles_wf s → handles_wf (snd (runTask taskId s)).
Proof.
  intros Hwf taskId' t'.
  destruct (runTask_tasks taskId s) as (f&->&Hconfig&_).
  pose proof (runTask_handles_kept taskId s) as Hkept.
  rewrite lookup_alter. case_decide.
  - subst taskId'. destruct (tasks s !! taskId) as [t|] eqn:Ht; [|done].
    simpl. intros [= <-]. destruct (Hwf _ _ Ht) as (?&c&Hc&?&?&?).
    destruct (Hconfig t) as (->&->&_&->&_&->).
    destruct (Hkept _ _ Hc) as (c'&->&?&?&?&_).
    split; [done|]. exists c'. split_and!; congruence.
  - intros Ht'. destruct (Hwf _ _ Ht') as (?&c&Hc&?&?&?).
    destruct (Hkept _ _ Hc) as (c'&->&?&?&?&_).
    split; [done|]. exists c'. split_and!; congruence.
Qed.

Lemma step_handles_wf op s : handles_wf s → handles_wf (step op s).
Proof.
  intros Hwf.
  pose proof (step_handles_kept op s) as Hkept.
  destruct op as [taskId schedule task options|taskId|taskId|taskId|h| |d];
    simpl in *.
  - pose proof (scheduleTask_cases taskId schedule task options s) as Hcases.
    pose proof (scheduleTask_handles taskId schedule task options s)
      as [_ Hnew].
    simpl in Hcases, Hnew.
    destruct Hcases as [[_ ->]|(handler&_&_&_&_&_&Hok&Htasks&_)]; [done|].
    rewrite Hok in Hnew. specialize (Hnew eq_refl).
    intros taskId' t'. rewrite Htasks, lookup_insert. case_decide.
    + intros [= <-]. subst taskId'. simpl. split; [done|].
      eexists. split; [exact Hnew|]. by split_and!.
    + intros Ht'. destruct (Hwf _ _ Ht') as (?&c&Hc&?&?&?).
      destruct (Hkept _ _ Hc) as (c'&->&?&?&?&_).
      split; [done|]. exists c'. split_and!; congruence.
  - by apply runTask_handles_wf.
  - intros taskId' t'. rewrite cancelTask_tasks, lookup_alter.
    assert (∀ t, tasks s !! taskId' = Some t →
              Task.id (Task.set_status "cancelled" t) = taskId' ∧
              ∃ c, cronTasks (snd (cancelTask taskId s))
                     !! Task.cronTask t = Some c ∧
                callback c = Some taskId' ∧
                expression c = Task.schedule t ∧
                timezone c = prop (Task.options t) "timezone") as Hone.
    { intros t Ht. destruct (Hwf _ _ Ht) as (?&c&Hc&?&?&?).
      destruct (Hkept _ _ Hc) as (c'&->&?&?&?&_).
      split; [done|]. exists c'. split_and!; congruence. }
    case_decide.
    + subst taskId'. destruct (tasks s !! taskId) as [t|] eqn:Ht; [|done].
      simpl. intros [= <-]. simpl. by apply (Hone t).
    + intros Ht'. by apply Hone.
  - intros taskId' t'. rewrite deleteTask_tasks, lookup_delete.
    case_decide; [done|].
    intros Ht'. destruct (Hwf _ _ Ht') as (?&c&Hc&?&?&?).
    destruct (Hkept _ _ Hc) as (c'&->&?&?&?&_).
    split; [done|]. exists c'. split_and!; congruence.
  - destruct (cronTasks s !! h) as [[? ? [taskId|] []]|]; try done.
    by apply runTask_handles_wf.
  - destruct (immediates s) as [|taskId rest]; [done|].
    by apply (runTask_handles_wf taskId (set_immediates rest s)).
  - done.
Qed.

Lemma run_handles_wf ops limit t0 :
  handles_wf (run ops (new_service limit t0)).
Proof.
  induction ops as [|op ops IH] using rev_ind.
  - intros taskId t. simpl. by rewrite lookup_empty.
  - rewrite run_snoc. by apply step_handles_wf.
Qed.

Lemma runTask_events_wf taskId s :
  events_wf s → events_wf (snd (runTask taskId s)).
Proof.
  intros (Hs&Hc&Hd&Hf&Hr&Hsize).
  destruct (tasks s !! taskId) as [t|] eqn:Ht.
  2:{ unfold runTask. rewrite Ht. by split_and!. }
  pose proof (runTask_cases taskId s t Ht) as Hcases. simpl in Hcases.
  destruct Hcases as (Hsched&Hcanc&Hcases).
  unfold events_wf. rewrite Hsched, Hcanc.
  destruct (invoke (Task.task t)) as [result|error];
    [|destruct (get error "message") as [message|]];
    destruct Hcases as (_&->&->&->&->&->);
    rewrite !count_events_app, map_size_insert_Some by done;
    simpl; split_and!; lia.
Qed.

Lemma step_events_wf op s : events_wf s → events_wf (step op s).
Proof.
  intros Hwf.
  destruct op as [taskId schedule task options|taskId|taskId|taskId|h| |d];
    simpl.
  - pose proof (scheduleTask_cases taskId schedule task options s) as Hcases.
    simpl in Hcases.
    destruct Hcases
      as [[_ ->]|(handler&Hnone&_&_&_&_&_&Htasks&Hstats&_&_&Hevents&_)];
      [done|].
    destruct Hwf as (Hs&Hc&Hd&Hf&Hr&Hsize).
    unfold events_wf. rewrite Htasks, Hstats, Hevents.
    rewrite !count_events_app, map_size_insert_None by done.
    simpl. split_and!; lia.
  - by apply runTask_events_wf.
  - unfold cancelTask. destruct (tasks s !! taskId) as [t|] eqn:Ht; [|done].
    destruct Hwf as (Hs&Hc&Hd&Hf&Hr&Hsize).
    unfold events_wf, update_task. simpl.
    rewrite !count_events_app, size_alter. simpl. split_and!; lia.
  - unfold deleteTask. destruct (tasks s !! taskId) as [t|] eqn:Ht; [|done].
    destruct Hwf as (Hs&Hc&Hd&Hf&Hr&Hsize).
    unfold events_wf. simpl.
    rewrite !count_events_app, map_size_delete_Some by done. simpl.
    assert (size (tasks s) ≠ 0%nat).
    { intros Hzero. apply map_size_empty_inv in Hzero.
      rewrite Hzero in Ht. by rewrite lookup_empty in Ht. }
    split_and!; lia.
  - destruct (cronTasks s !! h) as [[? ? [taskId|] []]|]; try done.
    by apply runTask_events_wf.
  - destruct (immediates s) as [|taskId rest]; [done|].
    by apply (runTask_events_wf taskId (set_immediates rest s)).
  - done.
Qed.

Lemma run_events_wf ops limit t0 :
  events_wf (run ops (new_service limit t0)).
Proof.
  induction ops as [|op ops IH] using rev_ind.
  - by split_and!.
  - rewrite run_snoc. by apply step_events_wf.
Qed.




End Invariants.

Section NextRun.
Context `{Cron}.

(** ** [calculateNextRun] is a query *)

(** X1. [calculateNextRun] leaves the registry, the counters, the clock,
    the deferred runs and the events as they are; it starts and stops no
    trigger and keeps every handle there is, adding at most one, which
    cannot fire.  It returns the clock reading or a date of the library,
    and an [undefined] timezone stands for ["UTC"]. *)
Theorem calculateNextRun_query schedule tz s :
  let r := calculateNextRun schedule tz s in
  same_service s (snd r) ∧
  (∀ h, trigger_active (snd r) h = trigger_active s h) ∧
  (∀ h c, cronTasks s !! h = Some c → cronTasks (snd r) !! h = Some c) ∧
  (length (cronTasks s) ≤ length (cronTasks (snd r))
   ≤ length (cronTasks s) + 1)%nat ∧
  (fst r = now s ∨
   ∃ tz' d, cron_nextDate schedule tz' (now s) = Some d ∧ fst r = d) ∧
  calculateNextRun schedule VUndefined s
    = calculateNextRun schedule (VStr "UTC") s.
Proof.
  simpl. split_and!.
  - apply calculateNextRun_frame.
  - apply calculateNextRun_triggers.
  - apply calculateNextRun_handles.
  - apply calculateNextRun_length.
  - unfold calculateNextRun.
    destruct (cron_schedule _ _ false); [simpl; lia|]. simpl.
    destruct (cron_nextDate _ _ _); simpl;
      rewrite ?length_alter, length_app; simpl; lia.
  - unfold calculateNextRun.
    destruct (cron_schedule _ _ false); [by left|]. simpl.
    destruct (cron_nextDate _ _ _) eqn:Hd; [|by left].
    right. by eauto.
  - done.
Qed.

End NextRun.

Section Cancel.
Context `{Cron}.

(** ** [cancelTask] *)




(** ** Unknown ids *)

(** X4. For an id that is not registered (every id, on a new service),
    [runTask], [cancelTask] and [deleteTask] answer [TaskNotFound] and
    leave the service untouched: no counter, no event, no handle; and
    [getTaskInfo] answers [TaskNotFound]. *)
Theorem unknown_task_not_found taskId s :
  tasks s !! taskId = None →
  runTask taskId s = (Failure TaskNotFound, s) ∧
  cancelTask taskId s = (Failure TaskNotFound, s) ∧
  deleteTask taskId s = (Failure TaskNotFound, s) ∧
  getTaskInfo taskId s = Failure TaskNotFound ∧
  ∀ limit t0,
    runTask taskId (new_service limit t0)
      = (Failure TaskNotFound, new_service limit t0) ∧
    cancelTask taskId (new_service limit t0)
      = (Failure TaskNotFound, new_service limit t0) ∧
    deleteTask taskId (new_service limit t0)
      = (Failure TaskNotFound, new_service limit t0).
Proof.
  intros Hnone.
  unfold runTask, cancelTask, deleteTask, getTaskInfo. rewrite Hnone.
  by split_and!.
Qed.

End Cancel.



Lemma unknown_task_not_found_witness :
  @runTask minute_cron "t9" (service_with "t1" returns_seven)
  = (Failure TaskNotFound, service_with "t1" returns_seven).
Proof.
  refine (proj1 (@unknown_task_not_found minute_cron "t9"
                   (service_with "t1" returns_seven) _)).
  vm_compute. reflexivity.
Defined.

Section Triggers.
Context `{Cron}.

(** ** Triggers *)

Lemma idle_handle_stays s s' h c :
  handles_kept s s' →
  cronTasks s !! h = Some c →
  active c = false →
  trigger_active s' h = false ∧ step (OpTrigger h) s' = s'.
Proof.
  intros Hkept Hc Hidle.
  destruct (Hkept h c Hc) as (c'&Hc'&_&_&_&Hactive).
  assert (active c' = false) as Hidle'.
  { destruct (active c') eqn:E; [|done]. rewrite Hactive in Hidle; done. }
  unfold trigger_active. simpl. rewrite Hc'. split; [done|].
  destruct c' as [? ? [?|] ?]; simpl in *; by subst.
Qed.

(** X5. Stopping a handle is final: whatever happens to the service
    afterwards, a handle that is stopped stays stopped, and a tick of its
    trigger changes nothing. *)
Theorem stopped_trigger_never_fires s h c ops :
  cronTasks s !! h = Some c →
  active c = false →
  trigger_active (run ops s) h = false ∧
  step (OpTrigger h) (run ops s) = run ops s.
Proof.
  intros Hc Hidle.
  by apply (idle_handle_stays s _ h c (run_handles_kept ops s)).
Qed.

(** X6. In a service with a history, after [cancelTask] or [deleteTask]
    of a registered task no tick of that task's trigger runs it any more,
    whatever is done to the service in between (a new registration of the
    id included). *)
Theorem cancelled_task_never_triggered ops0 limit t0 taskId t ops :
  let s := run ops0 (new_service limit t0) in
  tasks s !! taskId = Some t →
  step (OpTrigger (Task.cronTask t)) (run ops (snd (cancelTask taskId s)))
    = run ops (snd (cancelTask taskId s)) ∧
  step (OpTrigger (Task.cronTask t)) (run ops (snd (deleteTask taskId s)))
    = run ops (snd (deleteTask taskId s)).
Proof.
  intros s Ht.
  destruct (run_handles_wf ops0 limit t0 taskId t Ht) as (_&c&Hc&_).
  fold s in Hc.
  assert (∃ c', cronTasks (stop_cronTask (Task.cronTask t) s)
                  !! Task.cronTask t = Some c' ∧ active c' = false)
    as (c'&Hc'&Hidle).
  { unfold stop_cronTask. simpl. rewrite list_lookup_alter_eq, Hc.
    by eexists. }
  split.
  - apply (idle_handle_stays (snd (cancelTask taskId s)) _ _ c');
      [apply run_handles_kept| |done].
    unfold cancelTask. by rewrite Ht.
  - apply (idle_handle_stays (snd (deleteTask taskId s)) _ _ c');
      [apply run_handles_kept| |done].
    unfold deleteTask. by rewrite Ht.
Qed.

(** X7. In a service with a history, a tick of the trigger of a
    registered task is a run of that task, [runTask(taskId)], as long as
    the trigger is active, and nothing once it is stopped. *)
Theorem trigger_runs_its_task ops limit t0 taskId t :
  let s := run ops (new_service limit t0) in
  tasks s !! taskId = Some t →
  step (OpTrigger (Task.cronTask t)) s =
  if trigger_active s (Task.cronTask t) then snd (runTask taskId s) else s.
Proof.
  intros s Ht.
  destruct (run_handles_wf ops limit t0 taskId t Ht) as (_&c&Hc&Hcb&_).
  fold s in Hc. unfold trigger_active. simpl. rewrite Hc.
  destruct c as [? ? cb []]; simpl in *; by subst.
Qed.

(** X8. In a service with a history, two registered tasks never share a
    handle, so [cancelTask] and [deleteTask] of one task leave the trigger
    of every other task as it is (active, if it was). *)
Theorem cancelTask_stops_one_trigger ops limit t0 taskId t taskId' t' :
  let s := run ops (new_service limit t0) in
  tasks s !! taskId = Some t →
  tasks s !! taskId' = Some t' →
  taskId ≠ taskId' →
  Task.cronTask t ≠ Task.cronTask t' ∧
  trigger_active (snd (cancelTask taskId s)) (Task.cronTask t')
    = trigger_active s (Task.cronTask t') ∧
  trigger_active (snd (deleteTask taskId s)) (Task.cronTask t')
    = trigger_active s (Task.cronTask t').
Proof.
  intros s Ht Ht' Hne.
  destruct (run_handles_wf ops limit t0 taskId t Ht) as (_&c&Hc&Hcb&_).
  destruct (run_handles_wf ops limit t0 taskId' t' Ht') as (_&c'&Hc'&Hcb'&_).
  fold s in Hc, Hc'.
  assert (Task.cronTask t ≠ Task.cronTask t') as Hdiff.
  { intros Heq. rewrite Heq in Hc. congruence. }
  split; [done|]. split.
  - rewrite (cancelTask_triggers _ _ t) by done. by rewrite decide_False.
  - rewrite (deleteTask_triggers _ _ t) by done. by rewrite decide_False.
Qed.

End Triggers.

Lemma stopped_trigger_never_fires_witness :
  trigger_active
    (@run minute_cron [OpTime 60000; OpRun "t1"; OpTrigger 0]
       (snd (@cancelTask "t1" (service_with "t1" returns_seven)))) 0%nat
  = false.
Proof.
  assert (∃ c, cronTasks (snd (@cancelTask "t1"
                 (service_with "t1" returns_seven))) !! 0%nat = Some c ∧
               active c = false) as (c&Hc&Hidle)
    by (eexists; split; vm_compute; reflexivity).
  exact (proj1 (@stopped_trigger_never_fires minute_cron _ _ c
                  [OpTime 60000; OpRun "t1"; OpTrigger 0] Hc Hidle)).
Defined.

Lemma cancelled_task_never_triggered_witness :
  @step minute_cron (OpTrigger 0)
    (@run minute_cron [OpTime 60000]
       (snd (@cancelTask "t1"
          (@run minute_cron [OpSchedule "t1" every_minute returns_seven ∅]
             (new_service None 1000)))))
  = @run minute_cron [OpTime 60000]
      (snd (@cancelTask "t1"
         (@run minute_cron [OpSchedule "t1" every_minute returns_seven ∅]
            (new_service None 1000)))).
Proof.
  assert (tasks (@run minute_cron
                   [OpSchedule "t1" every_minute returns_seven ∅]
                   (new_service None 1000)) !! "t1"
          = Some (new_taskObj "t1" every_minute returns_seven
                    (task_options ∅) 1000 (Some 60000) 0)) as Ht
    by (vm_compute; reflexivity).
  exact (proj1 (@cancelled_task_never_triggered minute_cron
                  [OpSchedule "t1" every_minute returns_seven ∅]
                  None 1000 "t1" _ [OpTime 60000] Ht)).
Defined.

Lemma trigger_runs_its_task_witness :
  @step minute_cron (OpTrigger 0)
    (@run minute_cron [OpSchedule "t1" every_minute returns_seven ∅]
       (new_service None 1000))
  = if trigger_active
         (@run minute_cron [OpSchedule "t1" every_minute returns_seven ∅]
            (new_service None 1000)) 0
    then snd (@runTask minute_cron "t1"
                (@run minute_cron
                   [OpSchedule "t1" every_minute returns_seven ∅]
                   (new_service None 1000)))
    else @run minute_cron [OpSchedule "t1" every_minute returns_seven ∅]
           (new_service None 1000).
Proof.
  assert (tasks (@run minute_cron
                   [OpSchedule "t1" every_minute returns_seven ∅]
                   (new_service None 1000)) !! "t1"
          = Some (new_taskObj "t1" every_minute returns_seven
                    (task_options ∅) 1000 (Some 60000) 0)) as Ht
    by (vm_compute; reflexivity).
  exact (@trigger_runs_its_task minute_cron
           [OpSchedule "t1" every_minute returns_seven ∅] None 1000 "t1"
           _ Ht).
Defined.

Lemma cancelTask_stops_one_trigger_witness :
  trigger_active
    (snd (@cancelTask "t1"
       (@run minute_cron
          [OpSchedule "t1" every_minute returns_seven ∅;
           OpSchedule "t2" every_minute throws_boom ∅]
          (new_service None 1000))))
    2%nat = true.
Proof.
  assert (tasks (@run minute_cron
                   [OpSchedule "t1" every_minute returns_seven ∅;
                    OpSchedule "t2" every_minute throws_boom ∅]
                   (new_service None 1000)) !! "t1"
          = Some (new_taskObj "t1" every_minute returns_seven
                    (task_options ∅) 1000 (Some 60000) 0)) as Ht
    by (vm_compute; reflexivity).
  assert (tasks (@run minute_cron
                   [OpSchedule "t1" every_minute returns_seven ∅;
                    OpSchedule "t2" every_minute throws_boom ∅]
                   (new_service None 1000)) !! "t2"
          = Some (new_taskObj "t2" every_minute throws_boom
                    (task_options ∅) 1000 (Some 60000) 2)) as Ht'
    by (vm_compute; reflexivity).
  assert ("t1" ≠ "t2") as Hne by discriminate.
  etransitivity.
  - exact (proj1 (proj2 (@cancelTask_stops_one_trigger minute_cron
             [OpSchedule "t1" every_minute returns_seven ∅;
              OpSchedule "t2" every_minute throws_boom ∅] None 1000
             "t1" _ "t2" _ Ht Ht' Hne))).
  - vm_compute. reflexivity.
Defined.

Section Composition.
Context `{Cron}.

(** ** How the operations compose *)

Lemma getTaskInfo_lookup taskId s s' :
  tasks s' !! taskId = tasks s !! taskId →
  getTaskInfo taskId s' = getTaskInfo taskId s.
Proof. intros Heq. unfold getTaskInfo. by rewrite Heq. Qed.




(** X11. The operations on one id leave every other task as it is:
    after [scheduleTask], [runTask], [cancelTask] or [deleteTask] of
    [taskId], [getTaskInfo] of any other id answers what it answered
    before. *)
Theorem other_tasks_untouched taskId taskId' schedule task options s :
  taskId' ≠ taskId →
  getTaskInfo taskId' (snd (scheduleTask taskId schedule task options s))
    = getTaskInfo taskId' s ∧
  getTaskInfo taskId' (snd (runTask taskId s)) = getTaskInfo taskId' s ∧
  getTaskInfo taskId' (snd (cancelTask taskId s)) = getTaskInfo taskId' s ∧
  getTaskInfo taskId' (snd (deleteTask taskId s)) = getTaskInfo taskId' s.
Proof.
  intros Hne. split_and!; apply getTaskInfo_lookup.
  - pose proof (scheduleTask_cases taskId schedule task options s) as Hcases.
    simpl in Hcases.
    destruct Hcases as [[_ ->]|(handler&_&_&_&_&_&_&->&_)]; [done|].
    by rewrite lookup_insert_ne.
  - by apply runTask_other.
  - rewrite cancelTask_tasks. by rewrite lookup_alter_ne.
  - rewrite deleteTask_tasks. by rewrite lookup_delete_ne.
Qed.


End Composition.



Lemma other_tasks_untouched_witness :
  getTaskInfo "t1"
    (snd (@runTask minute_cron "t2" (service_with "t1" returns_seven)))
  = getTaskInfo "t1" (service_with "t1" returns_seven).
Proof.
  assert ("t1" ≠ "t2") as Hne by discriminate.
  exact (proj1 (proj2 (@other_tasks_untouched minute_cron "t2" "t1"
                         every_minute returns_seven ∅
                         (service_with "t1" returns_seven) Hne))).
Defined.


Section Accounting.
Context `{Cron}.

(** ** Counters, statistics and events over a history *)


(** X14. In a service with a history the counters account for the
    events: [scheduled], [cancelled], [completed] and [failed] are the
    numbers of [task:scheduled], [task:cancelled], [task:completed] and
    [task:failed] events; every [task:running] event is a run counted as
    completed, failed or still running; and [taskCount] is the number of
    [task:scheduled] events less the number of [task:deleted] events. *)
Theorem counters_count_events ops limit t0 :
  let s := run ops (new_service limit t0) in
  stat_scheduled (getStats s) = count_events is_task_scheduled (events s) ∧
  stat_cancelled (getStats s) = count_events is_task_cancelled (events s) ∧
  stat_completed (getStats s) = count_events is_task_completed (events s) ∧
  stat_failed (getStats s) = count_events is_task_failed (events s) ∧
  stat_completed (getStats s) + stat_failed (getStats s)
    + stat_running (getStats s)
    = count_events is_task_running (events s) ∧
  Z.of_nat (taskCount (getStats s))
    = count_events is_task_scheduled (events s)
      - count_events is_task_deleted (events s).
Proof.
  intros s.
  destruct (run_events_wf ops limit t0) as (H1&H2&H3&H4&H5&H6).
  fold s in H1, H2, H3, H4, H5, H6.
  unfold getStats. simpl. split_and!; assumption.
Qed.






End Accounting.


Section Listing.
Context `{Cron}.

(** ** [listTasks] *)

Lemma keys_step_wf op s keys :
  keys_wf keys s → keys_wf (keys_step op s keys) (step op s).
Proof.
  intros [Hnodup Hkeys].
  assert (∀ s' : Scheduler,
            (∀ taskId, is_Some (tasks s' !! taskId)
                       ↔ is_Some (tasks s !! taskId)) →
            keys_wf keys s') as Hsame.
  { intros s' Hs'. split; [done|]. intros taskId.
    by rewrite Hkeys, Hs'. }
  assert (∀ taskId s0, tasks s0 = tasks s →
            keys_wf keys (snd (runTask taskId s0))) as Hrun.
  { intros taskId s0 Hs0. apply Hsame. intros taskId'.
    destruct (runTask_tasks taskId s0) as (f&->&_).
    rewrite Hs0, lookup_alter. case_decide; [subst|done].
    by rewrite fmap_is_Some. }
  destruct op as [taskId schedule task options|taskId|taskId|taskId|h| |d];
    simpl.
  - pose proof (scheduleTask_cases taskId schedule task options s) as Hcases.
    simpl in Hcases.
    destruct Hcases as [[-> ->]|(handler&Hnone&_&_&_&_&->&Htasks&_)];
      [by split|].
    simpl. split.
    + apply NoDup_app. split_and!; [done| |apply NoDup_singleton].
      intros taskId' Hin ->%list_elem_of_singleton.
      apply Hkeys in Hin. rewrite Hnone in Hin. by destruct Hin.
    + intros taskId'. rewrite Htasks, elem_of_app, list_elem_of_singleton.
      rewrite lookup_insert. case_decide.
      * subst. split; [by eexists|by right].
      * rewrite Hkeys. split; [by intros [?|?]|by left].
  - by apply Hrun.
  - apply Hsame. intros taskId'. rewrite cancelTask_tasks, lookup_alter.
    case_decide; [subst|done]. by rewrite fmap_is_Some.
  - split; [by apply NoDup_filter|].
    intros taskId'. rewrite list_elem_of_filter, deleteTask_tasks.
    rewrite lookup_delete. case_decide.
    + subst. split; [by intros [? _]|by intros [? ?]].
    + rewrite Hkeys. split; [by intros [_ ?]|done].
  - destruct (cronTasks s !! h) as [[? ? [taskId|] []]|];
      try (by split).
    by apply Hrun.
  - destruct (immediates s) as [|taskId rest]; [by split|].
    by apply Hrun.
  - by split.
Qed.

Lemma keys_after_wf ops s keys :
  keys_wf keys s → keys_wf (keys_after ops s keys) (run ops s).
Proof.
  revert s keys. induction ops as [|op ops IH]; intros s keys Hwf; [done|].
  simpl. apply IH. by apply keys_step_wf.
Qed.

Lemma listTasks_all keys s :
  (∀ taskId, taskId ∈ keys → ∃ t, tasks s !! taskId = Some t ∧
                                   Task.id t = taskId) →
  length (listTasks keys s) = length keys ∧
  view_id <$> listTasks keys s = keys.
Proof.
  unfold listTasks. induction keys as [|key keys IH]; intros Hall; [done|].
  destruct (Hall key) as (t&Ht&Hid); [by left|].
  destruct IH as [IHlen IHids]; [intros ? ?; apply Hall; by right|].
  simpl. rewrite Ht. simpl. split; f_equal; assumption.
Qed.

(** X17. In a service with a history, [listTasks] returns one entry for
    each registered task and no other, in the order of registration: as
    many entries as [taskCount], with the ids of the registered tasks,
    none twice, and each entry is what [getTaskInfo] answers for its
    id. *)
Theorem listTasks_registered ops limit t0 :
  let s := run ops (new_service limit t0) in
  let keys := keys_after ops (new_service limit t0) [] in
  length (listTasks keys s) = taskCount (getStats s) ∧
  view_id <$> listTasks keys s = keys ∧
  NoDup keys ∧
  (∀ taskId, taskId ∈ keys ↔ is_Some (tasks s !! taskId)) ∧
  (∀ v, v ∈ listTasks keys s ↔ ∃ taskId, getTaskInfo taskId s = Info v).
Proof.
  intros s keys.
  assert (keys_wf keys s) as [Hnodup Hkeys].
  { apply keys_after_wf. split; [apply NoDup_nil_2|].
    intros taskId. simpl. rewrite lookup_empty.
    split; [by intros ?%elem_of_nil|by intros [? ?]]. }
  pose proof (run_handles_wf ops limit t0) as Hwf. fold s in Hwf.
  destruct (listTasks_all keys s) as [Hlen Hids].
  { intros taskId [t Ht]%Hkeys. exists t. split; [done|].
    by apply (Hwf taskId t). }
  split_and!; try done.
  - rewrite Hlen. unfold getStats. simpl.
    rewrite <- size_dom. unfold size, set_size. simpl.
    apply Permutation_length, NoDup_Permutation;
      [done|apply NoDup_elements|].
    intros taskId. by rewrite Hkeys, elem_of_elements, elem_of_dom.
  - intros v. unfold listTasks, getTaskInfo. rewrite list_elem_of_omap.
    split.
    + intros (taskId&_&Hv). exists taskId.
      destruct (tasks s !! taskId); simpl in *; by simplify_eq.
    + intros (taskId&Hv). exists taskId.
      destruct (tasks s !! taskId) as [t|] eqn:Ht; [|done].
      split; [apply Hkeys; by eexists|]. simpl. by simplify_eq.
Qed.

End Listing.

Section Options.
Context `{Cron}.

(** ** Options of a task *)

(** X18. After a successful registration [getTaskInfo] echoes the id and
    the schedule, shows no run yet ([lastRun] is [null], both statistics
    are 0), and returns the caller's options with every field as given;
    [timezone] is ["UTC"] and [runOnStart] is [false] only when the
    caller's options have no such field (a given field stays, also when it
    is falsy), and no other field is added. *)
Theorem scheduleTask_echoes_options taskId schedule task options s :
  success (fst (scheduleTask taskId schedule task options s)) = true →
  ∃ v,
    getTaskInfo taskId (snd (scheduleTask taskId schedule task options s))
      = Info v ∧
    view_id v = taskId ∧
    view_schedule v = schedule ∧
    view_lastRun v = None ∧
    view_stats v = mkTaskStats 0 0 ∧
    (∀ k x, options !! k = Some x → view_options v !! k = Some x) ∧
    (options !! "timezone" = None →
     view_options v !! "timezone" = Some (VStr "UTC")) ∧
    (options !! "runOnStart" = None →
     view_options v !! "runOnStart" = Some (VBool false)) ∧
    (∀ k, k ≠ "timezone" → k ≠ "runOnStart" → options !! k = None →
          view_options v !! k = None).
Proof.
  intros Hok.
  pose proof (scheduleTask_cases taskId schedule task options s) as Hcases.
  simpl in Hcases.
  destruct Hcases as [[Hfail _]|(handler&_&_&_&_&_&_&Htasks&_)];
    [congruence|].
  unfold getTaskInfo. rewrite Htasks, lookup_insert_eq.
  eexists. split; [reflexivity|]. simpl. unfold task_options.
  split_and!; try done.
  - intros k x Hk. by apply lookup_union_Some_l.
  - intros Hnone. rewrite lookup_union_r by done.
    unfold prop. rewrite Hnone. simpl. by rewrite lookup_insert_eq.
  - intros Hnone. rewrite lookup_union_r by done.
    rewrite lookup_insert_ne by done.
    unfold prop. rewrite Hnone. simpl. by rewrite lookup_singleton_eq.
  - intros k Htz Hros Hnone. rewrite lookup_union_r by done.
    rewrite lookup_insert_ne by done. by rewrite lookup_singleton_ne.
Qed.


(** ** Repeated runs *)


End Options.

Lemma scheduleTask_echoes_options_witness :
  ∃ v,
    getTaskInfo "t1"
      (snd (@scheduleTask minute_cron "t1" every_minute returns_seven
              {[ "timezone" := VStr ""; "owner" := VStr "ops" ]}
              fresh_service)) = Info v ∧
    view_options v !! "timezone" = Some (VStr "") ∧
    view_options v !! "runOnStart" = Some (VBool false).
Proof.
  assert (success (fst (@scheduleTask minute_cron "t1" every_minute
            returns_seven {[ "timezone" := VStr ""; "owner" := VStr "ops" ]}
            fresh_service)) = true) as Hok by (vm_compute; reflexivity).
  destruct (@scheduleTask_echoes_options minute_cron "t1" every_minute
              returns_seven {[ "timezone" := VStr ""; "owner" := VStr "ops" ]}
              fresh_service Hok) as (v&Hv&_&_&_&_&Hecho&_&Hros&_).
  exists v. split_and!.
  - exact Hv.
  - apply Hecho. vm_compute. reflexivity.
  - apply Hros. vm_compute. reflexivity.
Defined.



Section Outcomes.
Context `{Cron}.

(** ** Registration is all or nothing *)


(** ** What a run reports *)


(** ** Next run and clock *)

(** X23. With a cron library whose next dates are after the clock
    reading they are asked at, [nextRun] is never before the clock: after
    a successful registration it is not before [created], and after a run
    whose outcome is recorded (the handler resolved, or raised a value
    with a readable message) it is not before [lastRun]. *)
Theorem nextRun_not_before_clock :
  (∀ e z t' d, cron_nextDate e z t' = Some d → t' < d) →
  (∀ taskId schedule task options s,
     success (fst (scheduleTask taskId schedule task options s)) = true →
     ∃ v nextRun,
       getTaskInfo taskId
         (snd (scheduleTask taskId schedule task options s)) = Info v ∧
       view_nextRun v = Some nextRun ∧ view_created v ≤ nextRun) ∧
  (∀ taskId s t,
     tasks s !! taskId = Some t →
     (∀ error, invoke (Task.task t) = Raised error →
               is_nullish error = false) →
     ∃ v lastRun nextRun,
       getTaskInfo taskId (snd (runTask taskId s)) = Info v ∧
       view_lastRun v = Some lastRun ∧
       view_nextRun v = Some nextRun ∧ lastRun ≤ nextRun).
Proof.
  intros Hfuture. split.
  - intros taskId schedule task options s Hok.
    pose proof (scheduleTask_cases taskId schedule task options s) as Hcases.
    simpl in Hcases.
    destruct Hcases as [[Hfail _]|(handler&_&_&_&_&_&_&Htasks&_)];
      [congruence|].
    unfold getTaskInfo. rewrite Htasks, lookup_insert_eq.
    eexists _, _. split_and!; [done|done|]. simpl.
    by apply nextRunAt_future.
  - intros taskId s t Ht Hmessage.
    pose proof (runTask_cases taskId s t Ht) as Hcases. simpl in Hcases.
    destruct Hcases as (_&_&Hcases).
    unfold getTaskInfo.
    destruct (invoke (Task.task t)) as [result|error].
    + destruct Hcases as (_&->&_). rewrite lookup_insert_eq.
      eexists _, _, _. split_and!; [done|done|done|]. simpl.
      by apply nextRunAt_future.
    + specialize (Hmessage error eq_refl).
      destruct (get error "message") as [message|] eqn:Hget;
        [|by destruct error].
      destruct Hcases as (_&->&_). rewrite lookup_insert_eq.
      eexists _, _, _. split_and!; [done|done|done|]. simpl.
      by apply nextRunAt_future.
Qed.

End Outcomes.



Lemma minute_cron_future e z t d :
  @cron_nextDate minute_cron e z t = Some d → t < d.
Proof.
  simpl. intros [= <-].
  pose proof (Z.div_mod t 60000). pose proof (Z.mod_pos_bound t 60000).
  lia.
Defined.

Lemma nextRun_not_before_clock_witness :
  (∃ v nextRun,
     getTaskInfo "t1"
       (snd (@scheduleTask minute_cron "t1" every_minute returns_seven ∅
               fresh_service)) = Info v ∧
     view_nextRun v = Some nextRun ∧ view_created v ≤ nextRun) ∧
  (∃ v lastRun nextRun,
     getTaskInfo "t1"
       (snd (@runTask minute_cron "t1" (service_with "t1" throws_boom)))
       = Info v ∧
     view_lastRun v = Some lastRun ∧
     view_nextRun v = Some nextRun ∧ lastRun ≤ nextRun).
Proof.
  assert (success (fst (@scheduleTask minute_cron "t1" every_minute
                          returns_seven ∅ fresh_service)) = true) as Hok
    by (vm_compute; reflexivity).
  assert (tasks (service_with "t1" throws_boom) !! "t1"
          = Some (new_taskObj "t1" every_minute throws_boom
                    (task_options ∅) 1000 (Some 60000) 0)) as Ht
    by (vm_compute; reflexivity).
  assert (∀ error,
            invoke (Task.task (new_taskObj "t1" every_minute throws_boom
                                 (task_options ∅) 1000 (Some 60000) 0))
              = Raised error →
            is_nullish error = false) as Hmessage
    by (intros error [= <-]; reflexivity).
  split.
  - exact (proj1 (@nextRun_not_before_clock minute_cron minute_cron_future)
             "t1" every_minute returns_seven ∅ fresh_service Hok).
  - exact (proj2 (@nextRun_not_before_clock minute_cron minute_cron_future)
             "t1" (service_with "t1" throws_boom) _ Ht Hmessage).
Defined.

(** The order of [listTasks] on a small history: a deleted id that is
    registered again comes last. *)
Example listTasks_order :
  let ops := [OpSchedule "a" every_minute returns_seven ∅;
              OpSchedule "b" every_minute returns_seven ∅;
              OpSchedule "c" every_minute throws_boom ∅;
              OpDelete "a";
              OpSchedule "a" every_minute throws_boom ∅] in
  view_id <$> listTasks (@keys_after minute_cron ops fresh_service [])
                (@run minute_cron ops fresh_service)
  = ["b"; "c"; "a"].
Proof. vm_compute. reflexivity. Qed.
